(** * Client Work Forecast dashboard: the model and its properties

    A shallow embedding of the repository's Python sources:
    - [schemas.py]: the request and response records;
    - [app.py], [pages/1_Clients.py], [pages/2_Business_Structure.py]: the
      "Save Changes" handlers that compare the table shown to the user with
      the table the user edited and dispatch PUT and DELETE requests;
    - [setup_db.py]: the tables and their constraints;
    - [crud.py], [database.py], [fx_api.py]: the statements run on a borrowed
      connection and the REST endpoints above them. *)

From stdpp Require Import base decidable option list sorting gmap strings.
From Stdlib Require Import ZArith Lia.

Open Scope Z_scope.

(** ** Dates

    [datetime.date]: only equality of dates is used by the code. *)

Record date := mkdate { year : Z; month : Z; day : Z }.

#[global] Instance date_eq_dec : EqDecision date.
Proof. solve_decision. Defined.

(** ** The HTTP boundary between the pages and the API

    A page calls [requests.put], [requests.delete] and [requests.post]; the
    body is a JSON object. *)

Inductive jvalue :=
| JInt (n : Z)
| JStr (s : string)
| JBool (b : bool)
| JDate (d : date)      (* the ISO string of [d], as [isoformat] prints it *)
| JNull.

#[global] Instance jvalue_eq_dec : EqDecision jvalue.
Proof. solve_decision. Defined.

Definition json := list (string * jvalue).

Inductive request :=
| PUT (resource : string) (id : Z) (body : json)
| DELETE (resource : string) (id : Z)
| POST (resource : string) (body : json).

#[global] Instance request_eq_dec : EqDecision request.
Proof. solve_decision. Defined.

(** What [requests] gives back: a response with its status code and the
    "detail" of its body, or a [RequestException]. *)
Inductive reply :=
| Response (status_code : Z) (detail : string)
| RequestException (e : string).

(** What a page shows: [st.error], [st.warning], [st.success], [st.info]. *)
Inductive message :=
| Error_failed (context : string) (id : Z) (status_code : Z) (detail : string)
| Error_exception (context : string) (id : Z) (e : string)
| Warning_added_in_editor (name : string)
| Success_saved (update_count delete_count : nat)
| Info_no_changes.

#[global] Instance message_eq_dec : EqDecision message.
Proof. solve_decision. Defined.

(** Python exceptions that leave a handler. *)
Inductive py_exception :=
| ValueError (msg : string).

(** A page run: the requests sent so far (oldest first), the messages shown
    (oldest first) and the state of the server behind the API. *)
Record session (S : Type) := mkSession {
  server : S;
  sent : list request;
  shown : list message
}.
Arguments mkSession {S} _ _ _.
Arguments server {S} _.
Arguments sent {S} _.
Arguments shown {S} _.

Section Http.
Context {S : Type}.
(** The API as the page sees it: a request changes the server and is
    answered. *)
Variable serve : request → S → S * reply.

Definition http (rq : request) (st : session S) : session S * reply :=
  let '(s', r) := serve rq (server st) in
  (mkSession s' (sent st ++ [rq]) (shown st), r).

Definition show (m : message) (st : session S) : session S :=
  mkSession (server st) (sent st) (shown st ++ [m]).

(** One iteration of the dispatch loops:
<<
    try:
        response = requests.put(...)      # or requests.delete(...)
        if response.status_code == 200:
            count += 1
        else:
            handle_api_error(response, f"{context} {id}")
    except requests.exceptions.RequestException as e:
        st.error(f"Error {context} {id}: {e}")
>>
*)
Definition dispatch (context : string) (id : Z) (rq : request)
    (st : session S) (count : nat) : session S * nat :=
  let '(st', r) := http rq st in
  match r with
  | Response status_code detail =>
      if decide (status_code = 200) then (st', Datatypes.S count)
      else (show (Error_failed context id status_code detail) st', count)
  | RequestException e =>
      (show (Error_exception context id e) st', count)
  end.

(** The end of every save handler:
<<
    if update_count > 0 or delete_count > 0:
        st.success(f"... {update_count} update(s) and {delete_count} deletion(s)")
        st.cache_data.clear(); st.rerun()
    else:
        st.info("No changes detected.")
>>
*)
Definition report (update_count delete_count : nat) (st : session S)
    : session S :=
  if decide (0 < update_count ∨ 0 < delete_count)%nat
  then show (Success_saved update_count delete_count) st
  else show Info_no_changes st.

End Http.

(** ** What a run shows for what it sent *)

Definition is_error (m : message) : Prop :=
  match m with
  | Error_failed _ _ _ _ | Error_exception _ _ _ => True
  | _ => False
  end.

#[global] Instance is_error_dec m : Decision (is_error m).
Proof. destruct m; simpl; apply _. Defined.

Definition errors (msgs : list message) : nat := length (filter is_error msgs).

(** How a finished handler accounts for what it sent: its last message is the
    success message with the two counts when a request succeeded and
    "No changes detected." otherwise, and every request it sent either
    counted as a success or was shown as one error. *)
Definition outcome_reported {S} (st' : session S) : Prop :=
  ∃ u d : nat,
    last (shown st') =
      Some (if decide (0 < u ∨ 0 < d)%nat
            then Success_saved u d else Info_no_changes) ∧
    (u + d + errors (shown st') = length (sent st'))%nat.

(** [grows st st' n n' reqs]: from [st] with counter [n] the run reached [st']
    with counter [n'], sent exactly [reqs], left the earlier log untouched, and
    every request either raised the counter or showed one error message. *)
Definition grows {S} (st st' : session S) (n n' : nat) (reqs : list request)
    : Prop :=
  sent st' = sent st ++ reqs ∧
  ∃ msgs, shown st' = shown st ++ msgs ∧
          (n' + errors msgs = n + length reqs)%nat ∧
          (Info_no_changes ∉ msgs) ∧
          (∀ u d, (Success_saved u d) ∉ msgs).

(** ** [app.py]: the forecast page *)

Module App.

(** A row of [df_forecasts]: the JSON of [schemas.ForecastDetail], every
    field required. *)
Record ForecastDetail := mkForecastDetail {
  forecast_id : Z;
  business_vertical_name : string;
  business_unit_name : string;
  client_name : string;
  work_type_name : string;
  dt : date;
  forecast_amount : Z
}.

#[global] Instance ForecastDetail_eq_dec : EqDecision ForecastDetail.
Proof. solve_decision. Defined.

(** A row of [edited_df], what [st.data_editor] returns: the same columns,
    any cell possibly empty ([None]/[NaN]).  A row appended in the editor
    has its disabled cells empty; a number cell can be cleared. *)
Record EditedRow := mkEditedRow {
  e_forecast_id : option Z;
  e_business_vertical_name : option string;
  e_business_unit_name : option string;
  e_client_name : option string;
  e_work_type_name : option string;
  e_dt : option date;
  e_forecast_amount : option Z
}.

#[global] Instance EditedRow_eq_dec : EqDecision EditedRow.
Proof. solve_decision. Defined.

(** The editor's output when the user touches nothing. *)
Definition unedited (o : ForecastDetail) : EditedRow :=
  mkEditedRow (Some (forecast_id o)) (Some (business_vertical_name o))
    (Some (business_unit_name o)) (Some (client_name o))
    (Some (work_type_name o)) (Some (dt o)) (Some (forecast_amount o)).

(** The [on=[...]] columns of the merge: [forecast_id],
    [business_vertical_name], [business_unit_name], [client_name],
    [work_type_name], [dt]. *)
Definition merge_key : Type :=
  option Z * option string * option string * option string * option string
  * option date.

Definition key_orig (o : ForecastDetail) : merge_key :=
  (Some (forecast_id o), Some (business_vertical_name o),
   Some (business_unit_name o), Some (client_name o),
   Some (work_type_name o), Some (dt o)).

Definition key_new (e : EditedRow) : merge_key :=
  (e_forecast_id e, e_business_vertical_name e, e_business_unit_name e,
   e_client_name e, e_work_type_name e, e_dt e).

(** A row of [comparison_df].  The [_merge] indicator is the constructor;
    the key columns of a [both] row are those of either side,
    [forecast_amount_orig] comes from the left row and [forecast_amount_new]
    from the right one. *)
Inductive merged_row :=
| both (o : ForecastDetail) (e : EditedRow)
| left_only (o : ForecastDetail)
| right_only (e : EditedRow).

(** [df_forecasts.merge(edited_df, on=[...], how='outer', indicator=True)]:
    every left row paired with every right row of the same key, the left
    rows without a partner, the right rows without a partner.  pandas lists
    the rows by key, in an order that changed between releases (first
    appearance, or sorted); they are listed here by first appearance, left
    frame first, and nothing proved below depends on the order within the
    updates or within the deletions. *)
Definition merge_outer (df_forecasts : list ForecastDetail)
    (edited_df : list EditedRow) : list merged_row :=
  (df_forecasts ≫= λ o,
    match filter (λ e, key_new e = key_orig o) edited_df with
    | [] => [left_only o]
    | es => both o <$> es
    end)
  ++ (right_only <$>
        filter (λ e, key_new e ∉ (key_orig <$> df_forecasts)) edited_df).

(** [comparison_df['forecast_amount_orig'] != comparison_df['forecast_amount_new']]
    on a [both] row: an empty cell differs from everything. *)
Definition amount_differs (o : ForecastDetail) (e : EditedRow) : Prop :=
  match e_forecast_amount e with
  | Some a => forecast_amount o ≠ a
  | None => True
  end.

#[global] Instance amount_differs_dec o e : Decision (amount_differs o e).
Proof. unfold amount_differs. destruct (e_forecast_amount e); apply _. Defined.

Definition is_update (r : merged_row) : Prop :=
  match r with
  | both o e => amount_differs o e
  | _ => False
  end.

#[global] Instance is_update_dec r : Decision (is_update r).
Proof. destruct r; simpl; apply _. Defined.

Definition is_left_only (r : merged_row) : Prop :=
  match r with
  | left_only _ => True
  | _ => False
  end.

#[global] Instance is_left_only_dec r : Decision (is_left_only r).
Proof. destruct r; simpl; apply _. Defined.

(** The request a row of [updates] and a row of [deletions] lead to. *)
Definition put_of (r : merged_row) : option request :=
  match r with
  | both o e =>
      (λ a, PUT "forecasts" (forecast_id o)
              [("forecast_amount"%string, JInt a)]) <$> e_forecast_amount e
  | _ => None
  end.

Definition del_of (r : merged_row) : option request :=
  match r with
  | left_only o => Some (DELETE "forecasts" (forecast_id o))
  | _ => None
  end.

Section Save.
Context {S : Type}.
Variable serve : request → S → S * reply.

(** The update loop.  [int(row['forecast_amount_new'])] stands before the
    [try]: on an empty cell it raises and the handler stops there. *)
Fixpoint update_loop (updates : list merged_row) (st : session S)
    (update_count : nat) : session S * nat * option py_exception :=
  match updates with
  | [] => (st, update_count, None)
  | both o e :: rest =>
      match e_forecast_amount e with
      | None =>
          (st, update_count,
           Some (ValueError "cannot convert float NaN to integer"))
      | Some a =>
          let update_payload := [("forecast_amount"%string, JInt a)] in
          let '(st', n) :=
            dispatch serve "update forecast" (forecast_id o)
              (PUT "forecasts" (forecast_id o) update_payload)
              st update_count in
          update_loop rest st' n
      end
  | _ :: rest => update_loop rest st update_count
  end.

Fixpoint delete_loop (deletions : list merged_row) (st : session S)
    (delete_count : nat) : session S * nat :=
  match deletions with
  | [] => (st, delete_count)
  | left_only o :: rest =>
      let '(st', n) :=
        dispatch serve "delete forecast" (forecast_id o)
          (DELETE "forecasts" (forecast_id o)) st delete_count in
      delete_loop rest st' n
  | _ :: rest => delete_loop rest st delete_count
  end.

(** The body of [if st.button("Save Changes")]. *)
Definition save_changes (df_forecasts : list ForecastDetail)
    (edited_df : list EditedRow) (st : session S)
    : session S * option py_exception :=
  let comparison_df := merge_outer df_forecasts edited_df in
  let updates := filter is_update comparison_df in
  let '(st1, update_count, exn) := update_loop updates st 0%nat in
  match exn with
  | Some e => (st1, Some e)
  | None =>
      let deletions := filter is_left_only comparison_df in
      let '(st2, delete_count) := delete_loop deletions st1 0%nat in
      (report update_count delete_count st2, None)
  end.

End Save.

(** The editor disables the key columns: a row of the edited frame that
    carries the [forecast_id] of an original row carries its display
    columns and its date. *)
Definition keeps_disabled_columns (df_forecasts : list ForecastDetail)
    (edited_df : list EditedRow) : Prop :=
  ∀ o e, o ∈ df_forecasts → e ∈ edited_df →
         e_forecast_id e = Some (forecast_id o) → key_new e = key_orig o.

(** Every amount cell of the edited frame holds a number. *)
Definition amounts_present (edited_df : list EditedRow) : Prop :=
  ∀ e, e ∈ edited_df → is_Some (e_forecast_amount e).

(** *** The example of the specification *)

(** A row whose client was renamed between the fetch and the save. *)
Definition renamed (o : ForecastDetail) (name : string) : EditedRow :=
  mkEditedRow (Some (forecast_id o)) (Some (business_vertical_name o))
    (Some (business_unit_name o)) (Some name)
    (Some (work_type_name o)) (Some (dt o)) (Some (forecast_amount o)).

Definition row (id amount : Z) : ForecastDetail :=
  mkForecastDetail id "Technology" "Consulting Services" "Acme Corp"
    "Consulting" (mkdate 2025 11 1) amount.

Definition original3 : list ForecastDetail :=
  [row 1 100; row 2 200; row 3 300].

Definition edited2 : list EditedRow :=
  [unedited (row 1 150); unedited (row 3 300)].

(** A server that accepts everything, and one that refuses everything. *)
Definition always_ok (rq : request) (s : unit) : unit * reply :=
  (s, Response 200 "").
Definition always_404 (rq : request) (s : unit) : unit * reply :=
  (s, Response 404 "Forecast not found").

Definition start : session unit := mkSession tt [] [].

End App.

(** ** [pages/1_Clients.py]: the client page *)

Module Clients.

(** A date cell of a frame: a date, [None], or pandas' [NaT]. *)
Inductive date_cell :=
| D (d : date)
| PyNone
| NaT.

#[global] Instance date_cell_eq_dec : EqDecision date_cell.
Proof. solve_decision. Defined.

(** [pd.isna] *)
Definition isna (c : date_cell) : bool :=
  match c with
  | D _ => false
  | PyNone | NaT => true
  end.

(** The columns of [df_clients] other than [client_id]: the JSON of
    [schemas.Client], after [fetch_lookup_tables] turned the date columns
    into dates.  The editor requires a value in the name, start date and
    business unit cells. *)
Record ClientRow := mkClientRow {
  client_name : string;
  client_active : option bool;
  client_start_date : date;
  client_end_date : date_cell;
  business_unit_id : Z
}.

#[global] Instance ClientRow_eq_dec : EqDecision ClientRow.
Proof. solve_decision. Defined.

(** [df.set_index('client_id')]: the index label and the row.  A row
    appended in the editor has no [client_id]. *)
Abbreviation original_frame := (list (Z * ClientRow)).
Abbreviation edited_frame := (list (option Z * ClientRow)).

Definition unedited (r : Z * ClientRow) : option Z * ClientRow :=
  (Some r.1, r.2).

(** [client_id in original_df.index] and [original_df.loc[client_id]], the
    index being unique (a primary key). *)
Definition loc (original_df : original_frame) (client_id : Z)
    : option ClientRow :=
  (λ x, x.2.2) <$> list_find (λ r, r.1 = client_id) original_df.

(** [row.to_dict()] followed by
<<
    if pd.isna(row_dict['client_end_date']): row_dict['client_end_date'] = None
>>
*)
Definition normalised (r : ClientRow) : ClientRow :=
  if isna (client_end_date r)
  then mkClientRow (client_name r) (client_active r) (client_start_date r)
         PyNone (business_unit_id r)
  else r.

(** The PUT body: [row.to_dict()] with the dates as ISO strings. *)
Definition payload (r : ClientRow) : json :=
  [("client_name"%string, JStr (client_name r));
   ("client_active"%string,
      match client_active r with Some b => JBool b | None => JNull end);
   ("client_start_date"%string, JDate (client_start_date r));
   ("client_end_date"%string,
      match client_end_date r with D d => JDate d | _ => JNull end);
   ("business_unit_id"%string, JInt (business_unit_id r))].

(** The edited frame has the rows of the original one, in the same order,
    with the same cells up to the spelling of an empty end date ([None] or
    [NaT]). *)
Definition same_cells (original_df : original_frame)
    (edited_df : edited_frame) : Prop :=
  Forall2 (λ o e, e.1 = Some o.1 ∧ normalised e.2 = normalised o.2)
    original_df edited_df.

(** The original row an edited row is compared with, if any. *)
Definition partner (original_df : original_frame) (index : option Z)
    : option (Z * ClientRow) :=
  index ≫= λ client_id, pair client_id <$> loc original_df client_id.

(** The request an edited row leads to. *)
Definition put_of (original_df : original_frame) (r : option Z * ClientRow)
    : option request :=
  partner original_df r.1 ≫= λ p,
    if decide (normalised r.2 ≠ normalised p.2)
    then Some (PUT "clients" p.1 (payload r.2)) else None.

Section Save.
Context {S : Type}.
Variable serve : request → S → S * reply.

Fixpoint update_loop (original_df : original_frame)
    (edited_df : edited_frame) (st : session S) (update_count : nat)
    : session S * nat :=
  match edited_df with
  | [] => (st, update_count)
  | (index, row) :: rest =>
      match partner original_df index with
      | None =>
          (* [client_id not in original_df.index]: warn and [continue] *)
          update_loop original_df rest
            (show (Warning_added_in_editor (client_name row)) st)
            update_count
      | Some (client_id, original_row) =>
          if decide (normalised row ≠ normalised original_row) then
            let '(st', n) :=
              dispatch serve "update client" client_id
                (PUT "clients" client_id (payload row)) st update_count in
            update_loop original_df rest st' n
          else update_loop original_df rest st update_count
      end
  end.

Fixpoint delete_loop (deleted_ids : list Z) (st : session S)
    (delete_count : nat) : session S * nat :=
  match deleted_ids with
  | [] => (st, delete_count)
  | client_id :: rest =>
      let '(st', n) :=
        dispatch serve "delete client" client_id
          (DELETE "clients" client_id) st delete_count in
      delete_loop rest st' n
  end.

(** [set(original_df.index) - set(edited_df.index)] *)
Definition deleted_ids (original_df : original_frame)
    (edited_df : edited_frame) : gset Z :=
  list_to_set (fst <$> original_df) ∖ list_to_set (omap fst edited_df).

(** The body of [if st.button("Save Client Changes")]. *)
Definition save_client_changes (original_df : original_frame)
    (edited_df : edited_frame) (st : session S) : session S :=
  let '(st1, update_count) := update_loop original_df edited_df st 0%nat in
  let '(st2, delete_count) :=
    delete_loop (elements (deleted_ids original_df edited_df)) st1 0%nat in
  report update_count delete_count st2.

End Save.

End Clients.

(** ** [pages/2_Business_Structure.py]: the verticals tab *)

Module Verticals.

(** [df_verticals] indexed by [business_vertical_id]; the only other column
    is [business_vertical_name], required by the editor. *)
Abbreviation original_frame := (list (Z * string)).
Abbreviation edited_frame := (list (option Z * string)).

Definition loc (original_df : original_frame) (id : Z) : option string :=
  (λ x, x.2.2) <$> list_find (λ r, r.1 = id) original_df.

Inductive crash :=
| ConnectionError (e : string).

Definition partner (original_df : original_frame) (index : option Z)
    : option (Z * string) :=
  index ≫= λ id, pair id <$> loc original_df id.

(** The request an edited row leads to. *)
Definition put_of (original_df : original_frame) (r : option Z * string)
    : option request :=
  partner original_df r.1 ≫= λ p,
    if decide (r.2 ≠ p.2)
    then Some (PUT "verticals" p.1
                 [("business_vertical_name"%string, JStr r.2)])
    else None.

Section Save.
Context {S : Type}.
Variable serve : request → S → S * reply.

(** The requests of this page stand outside any [try]: a
    [RequestException] ends the handler. *)
Definition dispatch_bare (context : string) (id : Z) (rq : request)
    (st : session S) (count : nat) : session S * nat * option crash :=
  let '(st', r) := http serve rq st in
  match r with
  | Response status_code detail =>
      if decide (status_code = 200) then (st', Datatypes.S count, None)
      else (show (Error_failed context id status_code detail) st', count,
            None)
  | RequestException e => (st', count, Some (ConnectionError e))
  end.

Fixpoint update_loop (original_df : original_frame)
    (edited_df : edited_frame) (st : session S) (update_count : nat)
    : session S * nat * option crash :=
  match edited_df with
  | [] => (st, update_count, None)
  | (index, name) :: rest =>
      match partner original_df index with
      | None => update_loop original_df rest st update_count
      | Some (id, original_name) =>
          if decide (name ≠ original_name) then
            let '(st', n, c) :=
              dispatch_bare "update vertical" id
                (PUT "verticals" id
                   [("business_vertical_name"%string, JStr name)])
                st update_count in
            match c with
            | Some e => (st', n, Some e)
            | None => update_loop original_df rest st' n
            end
          else update_loop original_df rest st update_count
      end
  end.

Fixpoint delete_loop (deleted_ids : list Z) (st : session S)
    (delete_count : nat) : session S * nat * option crash :=
  match deleted_ids with
  | [] => (st, delete_count, None)
  | id :: rest =>
      let '(st', n, c) :=
        dispatch_bare "delete vertical" id (DELETE "verticals" id)
          st delete_count in
      match c with
      | Some e => (st', n, Some e)
      | None => delete_loop rest st' n
      end
  end.

Definition deleted_ids (original_df : original_frame)
    (edited_df : edited_frame) : gset Z :=
  list_to_set (fst <$> original_df) ∖ list_to_set (omap fst edited_df).

(** The body of [if st.button("Save Vertical Changes")]. *)
Definition save_vertical_changes (original_df : original_frame)
    (edited_df : edited_frame) (st : session S)
    : session S * option crash :=
  let '(st1, update_count, c1) :=
    update_loop original_df edited_df st 0%nat in
  match c1 with
  | Some e => (st1, Some e)
  | None =>
      let '(st2, delete_count, c2) :=
        delete_loop (elements (deleted_ids original_df edited_df)) st1
          0%nat in
      match c2 with
      | Some e => (st2, Some e)
      | None => (report update_count delete_count st2, None)
      end
  end.

End Save.

End Verticals.


(** ** [schemas.py]: the records of the API

    Each response model has the columns of its table, so one record serves as
    the table row and as the response.  Field names are shortened with the
    table's initials: [bu_vertical_id] is [business_unit.business_vertical_id]. *)

Module Schemas.

Record BusinessVerticalCreate := mkBusinessVerticalCreate {
  bvc_name : string                        (* business_vertical_name *)
}.

Record BusinessVertical := mkBusinessVertical {
  bv_name : string;                        (* business_vertical_name *)
  bv_id : Z                                (* business_vertical_id *)
}.

Record BusinessUnitCreate := mkBusinessUnitCreate {
  buc_name : string;                       (* business_unit_name *)
  buc_vertical_id : Z                      (* business_vertical_id *)
}.

Record BusinessUnit := mkBusinessUnit {
  bu_name : string;
  bu_vertical_id : Z;
  bu_id : Z                                (* business_unit_id *)
}.

Record ClientCreate := mkClientCreate {
  cc_name : string;                        (* client_name *)
  cc_active : option bool;                 (* client_active: bool | None *)
  cc_start_date : date;                    (* client_start_date *)
  cc_end_date : option date;               (* client_end_date: date | None *)
  cc_unit_id : Z                           (* business_unit_id *)
}.

Record Client := mkClient {
  c_name : string;
  c_active : option bool;
  c_start_date : date;
  c_end_date : option date;
  c_unit_id : Z;
  c_id : Z                                 (* client_id *)
}.

Record WorkTypeOriginTypeCreate := mkWorkTypeOriginTypeCreate {
  wtoc_name : string                       (* work_type_origin_type_name *)
}.

Record WorkTypeOriginType := mkWorkTypeOriginType {
  wto_name : string;
  wto_id : Z                               (* work_type_origin_type_id *)
}.

Record WorkTypeCreate := mkWorkTypeCreate {
  wtc_name : string;                       (* work_type_name *)
  wtc_origin_id : Z                        (* work_type_origin_type_id *)
}.

Record WorkType := mkWorkType {
  wt_name : string;
  wt_origin_id : Z;
  wt_id : Z                                (* work_type_id *)
}.

Record ForecastCreate := mkForecastCreate {
  fc_client_id : Z;                        (* client_id *)
  fc_unit_id : Z;                          (* business_unit_id *)
  fc_work_type_id : Z;                     (* work_type_id *)
  fc_dt : date;                            (* dt *)
  fc_amount : Z;                           (* forecast_amount: int *)
  fc_name : option string                  (* forecast_name: str | None *)
}.

Record Forecast := mkForecast {
  f_client_id : Z;
  f_unit_id : Z;
  f_work_type_id : Z;
  f_dt : date;
  f_amount : Z;
  f_name : option string;
  f_id : Z                                 (* forecast_id *)
}.

(** "Schema specifically for updating only the amount." *)
Record ForecastUpdate := mkForecastUpdate {
  fu_amount : Z                            (* forecast_amount: int *)
}.

#[global] Instance BusinessVertical_eq_dec : EqDecision BusinessVertical.
Proof. solve_decision. Defined.
#[global] Instance BusinessUnit_eq_dec : EqDecision BusinessUnit.
Proof. solve_decision. Defined.
#[global] Instance Client_eq_dec : EqDecision Client.
Proof. solve_decision. Defined.
#[global] Instance WorkTypeOriginType_eq_dec : EqDecision WorkTypeOriginType.
Proof. solve_decision. Defined.
#[global] Instance WorkType_eq_dec : EqDecision WorkType.
Proof. solve_decision. Defined.
#[global] Instance Forecast_eq_dec : EqDecision Forecast.
Proof. solve_decision. Defined.

End Schemas.

(** ** [setup_db.py]: the tables and their constraints

    The model covers what [CREATE_TABLES_SQL] declares: the [SERIAL] primary
    keys, the [UNIQUE] names, the [REFERENCES] of every foreign key and the
    [unique_forecast] constraint.  Values are taken to fit their column types
    ([INT], [VARCHAR(255)], [DATE]). *)

Module Db.
Import Schemas.

Record tables := mkTables {
  business_vertical : list BusinessVertical;
  work_type_origin_type : list WorkTypeOriginType;
  business_unit : list BusinessUnit;
  work_type : list WorkType;
  clients : list Client;
  forecasts : list Forecast
}.

(** The next value of the sequence behind each [SERIAL] column. *)
Record sequences := mkSequences {
  business_vertical_seq : Z;
  work_type_origin_type_seq : Z;
  business_unit_seq : Z;
  work_type_seq : Z;
  clients_seq : Z;
  forecasts_seq : Z
}.

Definition set_business_vertical v (t : tables) : tables :=
  mkTables v (work_type_origin_type t) (business_unit t) (work_type t)
    (clients t) (forecasts t).
Definition set_work_type_origin_type v (t : tables) : tables :=
  mkTables (business_vertical t) v (business_unit t) (work_type t)
    (clients t) (forecasts t).
Definition set_business_unit v (t : tables) : tables :=
  mkTables (business_vertical t) (work_type_origin_type t) v (work_type t)
    (clients t) (forecasts t).
Definition set_work_type v (t : tables) : tables :=
  mkTables (business_vertical t) (work_type_origin_type t) (business_unit t)
    v (clients t) (forecasts t).
Definition set_clients v (t : tables) : tables :=
  mkTables (business_vertical t) (work_type_origin_type t) (business_unit t)
    (work_type t) v (forecasts t).
Definition set_forecasts v (t : tables) : tables :=
  mkTables (business_vertical t) (work_type_origin_type t) (business_unit t)
    (work_type t) (clients t) v.

Definition bump_business_vertical_seq (s : sequences) : sequences :=
  mkSequences (business_vertical_seq s + 1) (work_type_origin_type_seq s)
    (business_unit_seq s) (work_type_seq s) (clients_seq s) (forecasts_seq s).
Definition bump_work_type_origin_type_seq (s : sequences) : sequences :=
  mkSequences (business_vertical_seq s) (work_type_origin_type_seq s + 1)
    (business_unit_seq s) (work_type_seq s) (clients_seq s) (forecasts_seq s).
Definition bump_business_unit_seq (s : sequences) : sequences :=
  mkSequences (business_vertical_seq s) (work_type_origin_type_seq s)
    (business_unit_seq s + 1) (work_type_seq s) (clients_seq s)
    (forecasts_seq s).
Definition bump_work_type_seq (s : sequences) : sequences :=
  mkSequences (business_vertical_seq s) (work_type_origin_type_seq s)
    (business_unit_seq s) (work_type_seq s + 1) (clients_seq s)
    (forecasts_seq s).
Definition bump_clients_seq (s : sequences) : sequences :=
  mkSequences (business_vertical_seq s) (work_type_origin_type_seq s)
    (business_unit_seq s) (work_type_seq s) (clients_seq s + 1)
    (forecasts_seq s).
Definition bump_forecasts_seq (s : sequences) : sequences :=
  mkSequences (business_vertical_seq s) (work_type_origin_type_seq s)
    (business_unit_seq s) (work_type_seq s) (clients_seq s)
    (forecasts_seq s + 1).

(** The errors of [psycopg2.errors] the statements can raise, with the name
    of the violated constraint. *)
Inductive pg_error :=
| UniqueViolation (constraint_name : string)
| ForeignKeyViolation (constraint_name : string)
| InFailedSqlTransaction.

(** A statement reads the tables and the sequences; it always leaves the
    sequences as it advanced them, and either fails or gives the new tables
    and the rows of its [RETURNING *] (or of its [SELECT]). *)
Definition statement (R : Type) : Type :=
  tables → sequences → sequences * (pg_error + tables * list R).

(** The first failing check decides the error.  A unique index is checked
    when the row is written, a foreign key at the end of the statement. *)
Fixpoint first_violation (checks : list (bool * pg_error)) : option pg_error :=
  match checks with
  | [] => None
  | (violated, e) :: rest => if violated then Some e else first_violation rest
  end.

Definition guarded {R} (checks : list (bool * pg_error))
    (ok : tables * list R) : pg_error + tables * list R :=
  match first_violation checks with
  | Some e => inl e
  | None => inr ok
  end.

(** *** [business_vertical] *)

Definition insert_business_vertical (name : string)
    : statement BusinessVertical := λ t s,
  let new := mkBusinessVertical name (business_vertical_seq s) in
  (bump_business_vertical_seq s,
   guarded
     [(bool_decide (bv_id new ∈ (bv_id <$> business_vertical t)),
       UniqueViolation "business_vertical_pkey");
      (bool_decide (name ∈ (bv_name <$> business_vertical t)),
       UniqueViolation "business_vertical_business_vertical_name_key")]
     (set_business_vertical (business_vertical t ++ [new]) t, [new])).

Definition select_business_vertical (id : Z) : statement BusinessVertical :=
  λ t s, (s, inr (t, filter (λ r, bv_id r = id) (business_vertical t))).

Definition update_business_vertical (name : string) (id : Z)
    : statement BusinessVertical := λ t s,
  let hit := filter (λ r, bv_id r = id) (business_vertical t) in
  let set r := mkBusinessVertical name (bv_id r) in
  (s,
   guarded
     [(bool_decide (hit ≠ [] ∧
                    name ∈ (bv_name <$>
                              filter (λ r, bv_id r ≠ id) (business_vertical t))),
       UniqueViolation "business_vertical_business_vertical_name_key")]
     (set_business_vertical
        ((λ r, if decide (bv_id r = id) then set r else r)
           <$> business_vertical t) t,
      set <$> hit)).

Definition delete_business_vertical (id : Z) : statement BusinessVertical :=
  λ t s,
  let hit := filter (λ r, bv_id r = id) (business_vertical t) in
  (s,
   guarded
     [(bool_decide (hit ≠ [] ∧ id ∈ (bu_vertical_id <$> business_unit t)),
       ForeignKeyViolation "business_unit_business_vertical_id_fkey")]
     (set_business_vertical
        (filter (λ r, bv_id r ≠ id) (business_vertical t)) t,
      hit)).

(** *** [work_type_origin_type] *)

Definition insert_work_type_origin_type (name : string)
    : statement WorkTypeOriginType := λ t s,
  let new := mkWorkTypeOriginType name (work_type_origin_type_seq s) in
  (bump_work_type_origin_type_seq s,
   guarded
     [(bool_decide (wto_id new ∈ (wto_id <$> work_type_origin_type t)),
       UniqueViolation "work_type_origin_type_pkey");
      (bool_decide (name ∈ (wto_name <$> work_type_origin_type t)),
       UniqueViolation
         "work_type_origin_type_work_type_origin_type_name_key")]
     (set_work_type_origin_type (work_type_origin_type t ++ [new]) t, [new])).

Definition update_work_type_origin_type (name : string) (id : Z)
    : statement WorkTypeOriginType := λ t s,
  let hit := filter (λ r, wto_id r = id) (work_type_origin_type t) in
  let set r := mkWorkTypeOriginType name (wto_id r) in
  (s,
   guarded
     [(bool_decide (hit ≠ [] ∧
                    name ∈ (wto_name <$>
                              filter (λ r, wto_id r ≠ id)
                                (work_type_origin_type t))),
       UniqueViolation
         "work_type_origin_type_work_type_origin_type_name_key")]
     (set_work_type_origin_type
        ((λ r, if decide (wto_id r = id) then set r else r)
           <$> work_type_origin_type t) t,
      set <$> hit)).

Definition delete_work_type_origin_type (id : Z)
    : statement WorkTypeOriginType := λ t s,
  let hit := filter (λ r, wto_id r = id) (work_type_origin_type t) in
  (s,
   guarded
     [(bool_decide (hit ≠ [] ∧ id ∈ (wt_origin_id <$> work_type t)),
       ForeignKeyViolation "work_type_work_type_origin_type_id_fkey")]
     (set_work_type_origin_type
        (filter (λ r, wto_id r ≠ id) (work_type_origin_type t)) t,
      hit)).

(** *** [business_unit] *)

Definition insert_business_unit (name : string) (vertical_id : Z)
    : statement BusinessUnit := λ t s,
  let new := mkBusinessUnit name vertical_id (business_unit_seq s) in
  (bump_business_unit_seq s,
   guarded
     [(bool_decide (bu_id new ∈ (bu_id <$> business_unit t)),
       UniqueViolation "business_unit_pkey");
      (bool_decide (name ∈ (bu_name <$> business_unit t)),
       UniqueViolation "business_unit_business_unit_name_key");
      (bool_decide (vertical_id ∉ (bv_id <$> business_vertical t)),
       ForeignKeyViolation "business_unit_business_vertical_id_fkey")]
     (set_business_unit (business_unit t ++ [new]) t, [new])).

Definition select_business_unit (id : Z) : statement BusinessUnit :=
  λ t s, (s, inr (t, filter (λ r, bu_id r = id) (business_unit t))).

Definition update_business_unit (name : string) (vertical_id : Z) (id : Z)
    : statement BusinessUnit := λ t s,
  let hit := filter (λ r, bu_id r = id) (business_unit t) in
  let set r := mkBusinessUnit name vertical_id (bu_id r) in
  (s,
   guarded
     [(bool_decide (hit ≠ [] ∧
                    name ∈ (bu_name <$>
                              filter (λ r, bu_id r ≠ id) (business_unit t))),
       UniqueViolation "business_unit_business_unit_name_key");
      (bool_decide (hit ≠ [] ∧
                    vertical_id ∉ (bv_id <$> business_vertical t)),
       ForeignKeyViolation "business_unit_business_vertical_id_fkey")]
     (set_business_unit
        ((λ r, if decide (bu_id r = id) then set r else r)
           <$> business_unit t) t,
      set <$> hit)).

Definition delete_business_unit (id : Z) : statement BusinessUnit := λ t s,
  let hit := filter (λ r, bu_id r = id) (business_unit t) in
  (s,
   guarded
     [(bool_decide (hit ≠ [] ∧ id ∈ (c_unit_id <$> clients t)),
       ForeignKeyViolation "clients_business_unit_id_fkey");
      (bool_decide (hit ≠ [] ∧ id ∈ (f_unit_id <$> forecasts t)),
       ForeignKeyViolation "forecasts_business_unit_id_fkey")]
     (set_business_unit (filter (λ r, bu_id r ≠ id) (business_unit t)) t,
      hit)).

(** *** [work_type] *)

Definition insert_work_type (name : string) (origin_id : Z)
    : statement WorkType := λ t s,
  let new := mkWorkType name origin_id (work_type_seq s) in
  (bump_work_type_seq s,
   guarded
     [(bool_decide (wt_id new ∈ (wt_id <$> work_type t)),
       UniqueViolation "work_type_pkey");
      (bool_decide (name ∈ (wt_name <$> work_type t)),
       UniqueViolation "work_type_work_type_name_key");
      (bool_decide (origin_id ∉ (wto_id <$> work_type_origin_type t)),
       ForeignKeyViolation "work_type_work_type_origin_type_id_fkey")]
     (set_work_type (work_type t ++ [new]) t, [new])).

Definition update_work_type (name : string) (origin_id : Z) (id : Z)
    : statement WorkType := λ t s,
  let hit := filter (λ r, wt_id r = id) (work_type t) in
  let set r := mkWorkType name origin_id (wt_id r) in
  (s,
   guarded
     [(bool_decide (hit ≠ [] ∧
                    name ∈ (wt_name <$>
                              filter (λ r, wt_id r ≠ id) (work_type t))),
       UniqueViolation "work_type_work_type_name_key");
      (bool_decide (hit ≠ [] ∧
                    origin_id ∉ (wto_id <$> work_type_origin_type t)),
       ForeignKeyViolation "work_type_work_type_origin_type_id_fkey")]
     (set_work_type
        ((λ r, if decide (wt_id r = id) then set r else r) <$> work_type t) t,
      set <$> hit)).

Definition delete_work_type (id : Z) : statement WorkType := λ t s,
  let hit := filter (λ r, wt_id r = id) (work_type t) in
  (s,
   guarded
     [(bool_decide (hit ≠ [] ∧ id ∈ (f_work_type_id <$> forecasts t)),
       ForeignKeyViolation "forecasts_work_type_id_fkey")]
     (set_work_type (filter (λ r, wt_id r ≠ id) (work_type t)) t, hit)).

(** *** [clients] *)

Definition insert_client (c : ClientCreate) : statement Client := λ t s,
  let new := mkClient (cc_name c) (cc_active c) (cc_start_date c)
               (cc_end_date c) (cc_unit_id c) (clients_seq s) in
  (bump_clients_seq s,
   guarded
     [(bool_decide (c_id new ∈ (c_id <$> clients t)),
       UniqueViolation "clients_pkey");
      (bool_decide (cc_name c ∈ (c_name <$> clients t)),
       UniqueViolation "clients_client_name_key");
      (bool_decide (cc_unit_id c ∉ (bu_id <$> business_unit t)),
       ForeignKeyViolation "clients_business_unit_id_fkey")]
     (set_clients (clients t ++ [new]) t, [new])).

Definition select_client (id : Z) : statement Client :=
  λ t s, (s, inr (t, filter (λ r, c_id r = id) (clients t))).

Definition update_client (c : ClientCreate) (id : Z) : statement Client :=
  λ t s,
  let hit := filter (λ r, c_id r = id) (clients t) in
  let set r := mkClient (cc_name c) (cc_active c) (cc_start_date c)
                 (cc_end_date c) (cc_unit_id c) (c_id r) in
  (s,
   guarded
     [(bool_decide (hit ≠ [] ∧
                    cc_name c ∈ (c_name <$>
                                   filter (λ r, c_id r ≠ id) (clients t))),
       UniqueViolation "clients_client_name_key");
      (bool_decide (hit ≠ [] ∧ cc_unit_id c ∉ (bu_id <$> business_unit t)),
       ForeignKeyViolation "clients_business_unit_id_fkey")]
     (set_clients
        ((λ r, if decide (c_id r = id) then set r else r) <$> clients t) t,
      set <$> hit)).

Definition delete_client (id : Z) : statement Client := λ t s,
  let hit := filter (λ r, c_id r = id) (clients t) in
  (s,
   guarded
     [(bool_decide (hit ≠ [] ∧ id ∈ (f_client_id <$> forecasts t)),
       ForeignKeyViolation "forecasts_client_id_fkey")]
     (set_clients (filter (λ r, c_id r ≠ id) (clients t)) t, hit)).

(** *** [forecasts] *)

(** The columns of [unique_forecast]. *)
Definition unique_forecast (r : Forecast) : Z * Z * Z * date :=
  (f_unit_id r, f_client_id r, f_work_type_id r, f_dt r).

Definition insert_forecast (f : ForecastCreate) : statement Forecast :=
  λ t s,
  let new := mkForecast (fc_client_id f) (fc_unit_id f) (fc_work_type_id f)
               (fc_dt f) (fc_amount f) (fc_name f) (forecasts_seq s) in
  (bump_forecasts_seq s,
   guarded
     [(bool_decide (f_id new ∈ (f_id <$> forecasts t)),
       UniqueViolation "forecasts_pkey");
      (bool_decide (unique_forecast new ∈ (unique_forecast <$> forecasts t)),
       UniqueViolation "unique_forecast");
      (bool_decide (fc_client_id f ∉ (c_id <$> clients t)),
       ForeignKeyViolation "forecasts_client_id_fkey");
      (bool_decide (fc_unit_id f ∉ (bu_id <$> business_unit t)),
       ForeignKeyViolation "forecasts_business_unit_id_fkey");
      (bool_decide (fc_work_type_id f ∉ (wt_id <$> work_type t)),
       ForeignKeyViolation "forecasts_work_type_id_fkey")]
     (set_forecasts (forecasts t ++ [new]) t, [new])).

(** [UPDATE forecasts SET forecast_amount = %s WHERE forecast_id = %s] *)
Definition set_amount (amount : Z) (r : Forecast) : Forecast :=
  mkForecast (f_client_id r) (f_unit_id r) (f_work_type_id r) (f_dt r)
    amount (f_name r) (f_id r).

Definition update_forecast_amount (amount : Z) (id : Z)
    : statement Forecast := λ t s,
  (s,
   inr (set_forecasts
          ((λ r, if decide (f_id r = id) then set_amount amount r else r)
             <$> forecasts t) t,
        set_amount amount <$> filter (λ r, f_id r = id) (forecasts t))).

Definition delete_forecast (id : Z) : statement Forecast := λ t s,
  (s,
   inr (set_forecasts (filter (λ r, f_id r ≠ id) (forecasts t)) t,
        filter (λ r, f_id r = id) (forecasts t))).

(** *** [INSERT_SAMPLE_DATA_SQL] on the empty tables *)

Definition sample : tables :=
  mkTables
    [mkBusinessVertical "Technology" 1; mkBusinessVertical "Finance" 2;
     mkBusinessVertical "Healthcare" 3]
    [mkWorkTypeOriginType "Internal Project" 1;
     mkWorkTypeOriginType "Client Request" 2]
    [mkBusinessUnit "Consulting Services" 1 1;
     mkBusinessUnit "Managed Services" 1 2;
     mkBusinessUnit "Investment Banking" 2 3;
     mkBusinessUnit "Data Science" 3 4]
    [mkWorkType "Consulting" 2 1; mkWorkType "Development" 1 2;
     mkWorkType "Support" 2 3; mkWorkType "Data Analysis" 2 4]
    [mkClient "Acme Corp" (Some true) (mkdate 2023 1 1) None 1 1;
     mkClient "Beta Industries" (Some true) (mkdate 2024 5 15) None 2 2;
     mkClient "Gamma Solutions" (Some false) (mkdate 2022 3 10) None 1 3]
    [mkForecast 1 1 1 (mkdate 2025 11 1) 10000 None 1;
     mkForecast 1 1 1 (mkdate 2025 12 1) 12000 None 2;
     mkForecast 1 1 1 (mkdate 2026 1 1) 11000 None 3;
     mkForecast 1 1 2 (mkdate 2025 11 1) 25000 None 4;
     mkForecast 1 1 2 (mkdate 2025 12 1) 22000 None 5;
     mkForecast 1 1 2 (mkdate 2026 1 1) 27000 None 6;
     mkForecast 2 2 3 (mkdate 2025 11 1) 5000 None 7;
     mkForecast 2 2 3 (mkdate 2025 12 1) 5000 None 8;
     mkForecast 2 2 3 (mkdate 2026 1 1) 5500 None 9;
     mkForecast 2 2 4 (mkdate 2025 11 1) 8000 None 10;
     mkForecast 2 2 4 (mkdate 2025 12 1) 9000 None 11].

Definition sample_sequences : sequences := mkSequences 4 3 5 5 4 12.

(** *** The connection ([psycopg2], autocommit off)

    [committed] is what the server holds, [working] what the open
    transaction sees. *)
Inductive transaction_status := Idle | InTransaction | InError.

#[global] Instance transaction_status_eq_dec : EqDecision transaction_status.
Proof. solve_decision. Defined.

Record connection := mkConnection {
  committed : tables;
  working : tables;
  seqs : sequences;
  status : transaction_status
}.

(** A connection as the pool hands it out. *)
Definition idle (t : tables) (s : sequences) : connection :=
  mkConnection t t s Idle.

(** [conn.rollback()] *)
Definition rollback (c : connection) : connection :=
  mkConnection (committed c) (committed c) (seqs c) Idle.

(** [conn.commit()]: committing a failed transaction rolls it back. *)
Definition commit (c : connection) : connection :=
  match status c with
  | InError => rollback c
  | _ => mkConnection (working c) (working c) (seqs c) Idle
  end.

(** [cur.execute(...)] followed by [cur.fetchall()]: a failed statement
    leaves the transaction aborted, and every statement after it fails
    until the transaction ends. *)
Definition execute {R} (q : statement R) (c : connection)
    : connection * (pg_error + list R) :=
  match status c with
  | InError => (c, inl InFailedSqlTransaction)
  | _ =>
      let '(s', r) := q (working c) (seqs c) in
      match r with
      | inl e => (mkConnection (committed c) (working c) s' InError, inl e)
      | inr (t', rows) =>
          (mkConnection (committed c) t' s' InTransaction, inr rows)
      end
  end.

(** [db_pool.putconn(conn)]: the pool rolls back a connection that comes
    back inside a transaction or in error. *)
Definition putconn (c : connection) : connection :=
  match status c with
  | Idle => c
  | _ => rollback c
  end.

End Db.

(** ** Python over a borrowed connection

    A function of [crud.py] or [fx_api.py] changes the connection it is given
    and returns or raises. *)

Module Py.
Import Db.

Inductive exn :=
| PgError (e : pg_error)
| HTTPException (status_code : Z) (detail : string)
| TypeError (msg : string).

Inductive outcome (A : Type) :=
| Return (a : A)
| Raise (e : exn).
Arguments Return {A} _.
Arguments Raise {A} _.

Definition M (A : Type) : Type := connection → connection * outcome A.

Definition ret {A} (a : A) : M A := λ c, (c, Return a).
Definition raise {A} (e : exn) : M A := λ c, (c, Raise e).
Definition bind {A B} (m : M A) (k : A → M B) : M B := λ c,
  match m c with
  | (c', Return a) => k a c'
  | (c', Raise e) => (c', Raise e)
  end.

(** [try: body  except ...: handler]; a handler that does not match
    re-raises. *)
Definition try_except {A} (body : M A) (handler : exn → M A) : M A := λ c,
  match body c with
  | (c', Return a) => (c', Return a)
  | (c', Raise e) => handler e c'
  end.

(** [str(e)], abridged to the name of the violated constraint. *)
Definition str (e : exn) : string :=
  match e with
  | PgError (UniqueViolation n) => n
  | PgError (ForeignKeyViolation n) => n
  | PgError InFailedSqlTransaction =>
      "current transaction is aborted"
  | HTTPException _ detail => detail
  | TypeError msg => msg
  end.

Definition cur_execute {R} (q : statement R) : M (list R) := λ c,
  match execute q c with
  | (c', inl e) => (c', Raise (PgError e))
  | (c', inr rows) => (c', Return rows)
  end.

(** [cur.fetchone()]: the first row or [None]. *)
Definition fetchone {R} (rows : list R) : option R := head rows.

Definition conn_commit : M unit := λ c, (commit c, Return tt).

(** [Model.model_validate(dict(row))]; [dict(None)] raises. *)
Definition model_validate {R} (row : option R) : M R :=
  match row with
  | Some r => ret r
  | None => raise (TypeError "'NoneType' object is not iterable")
  end.

End Py.

Declare Scope py_scope.
Delimit Scope py_scope with py.
Notation "x <- m ;; k" := (Py.bind m (λ x, k))
  (at level 100, m at next level, right associativity) : py_scope.

(** ** [crud.py] *)

Module Crud.
Import Schemas Db Py.
Local Open Scope py_scope.

(** A statement with [RETURNING *], [fetchone], [commit]. *)
Definition write {R} (q : statement R) : M (option R) :=
  rows <- cur_execute q ;;
  let row := fetchone rows in
  _ <- conn_commit ;;
  ret row.

(** A [SELECT] by id and [fetchone]; nothing is committed. *)
Definition read {R} (q : statement R) : M (option R) :=
  rows <- cur_execute q ;;
  ret (fetchone rows).

Definition create_business_vertical (vertical : BusinessVerticalCreate) :=
  write (insert_business_vertical (bvc_name vertical)).
Definition get_business_vertical (vertical_id : Z) :=
  read (select_business_vertical vertical_id).
Definition update_business_vertical (vertical_id : Z)
    (vertical : BusinessVerticalCreate) :=
  write (Db.update_business_vertical (bvc_name vertical) vertical_id).
Definition delete_business_vertical (vertical_id : Z) :=
  write (Db.delete_business_vertical vertical_id).

Definition create_business_unit (unit : BusinessUnitCreate) :=
  write (insert_business_unit (buc_name unit) (buc_vertical_id unit)).
Definition get_business_unit (unit_id : Z) :=
  read (select_business_unit unit_id).
Definition update_business_unit (unit_id : Z) (unit : BusinessUnitCreate) :=
  write (Db.update_business_unit (buc_name unit) (buc_vertical_id unit)
           unit_id).
Definition delete_business_unit (unit_id : Z) :=
  write (Db.delete_business_unit unit_id).

Definition create_client (client : ClientCreate) :=
  write (insert_client client).
Definition get_client (client_id : Z) :=
  read (select_client client_id).
Definition update_client (client_id : Z) (client : ClientCreate) :=
  write (Db.update_client client client_id).
Definition delete_client (client_id : Z) :=
  write (Db.delete_client client_id).

Definition create_work_type (work_type : WorkTypeCreate) :=
  write (insert_work_type (wtc_name work_type) (wtc_origin_id work_type)).
Definition update_work_type (work_type_id : Z) (work_type : WorkTypeCreate) :=
  write (Db.update_work_type (wtc_name work_type) (wtc_origin_id work_type)
           work_type_id).
Definition delete_work_type (work_type_id : Z) :=
  write (Db.delete_work_type work_type_id).

Definition create_work_type_origin_type
    (origin_type : WorkTypeOriginTypeCreate) :=
  write (insert_work_type_origin_type (wtoc_name origin_type)).
Definition update_work_type_origin_type (origin_type_id : Z)
    (origin_type : WorkTypeOriginTypeCreate) :=
  write (Db.update_work_type_origin_type (wtoc_name origin_type)
           origin_type_id).
Definition delete_work_type_origin_type (origin_type_id : Z) :=
  write (Db.delete_work_type_origin_type origin_type_id).

Definition create_forecast (forecast : ForecastCreate) :=
  write (insert_forecast forecast).
Definition update_forecast_amount (forecast_id : Z)
    (forecast_update : ForecastUpdate) :=
  write (Db.update_forecast_amount (fu_amount forecast_update) forecast_id).
Definition delete_forecast (forecast_id : Z) :=
  write (Db.delete_forecast forecast_id).

End Crud.

(** ** [database.py] *)

Module Database.
Import Db Py.

(** [get_db_conn]: the endpoint runs on a connection taken from the pool,
    which goes back to the pool in the [finally] clause when the endpoint is
    over, however it ended (the [except] clause only prints). *)
Definition get_db_conn {A} (endpoint : M A) : M A := λ conn,
  let '(conn', r) := endpoint conn in
  (putconn conn', r).

End Database.

(** ** [fx_api.py]: the endpoints

    An endpoint returns its response model or raises; the status of a raised
    [HTTPException] is the status of the response. *)

Module Api.
Import Schemas Db Py.
Local Open Scope py_scope.

(** [if row is None: raise HTTPException(...)] then [model_validate]. *)
Definition found {R} (status_code : Z) (detail : string) (row : option R)
    : M R :=
  match row with
  | None => raise (HTTPException status_code detail)
  | Some r => model_validate (Some r)
  end.

(** The [except] clauses of the create endpoints. *)
Definition on_create (duplicate : string) (missing : option string)
    (e : exn) {R} : M R :=
  match e, missing with
  | PgError (UniqueViolation _), _ => raise (HTTPException 400 duplicate)
  | PgError (ForeignKeyViolation _), Some detail =>
      raise (HTTPException 404 detail)
  | _, _ => raise (HTTPException 500 (str e))
  end.

(** The [except] clauses of the update endpoints. *)
Definition on_update (duplicate : string) (missing : option string)
    (e : exn) {R} : M R :=
  match e, missing with
  | PgError (UniqueViolation _), _ => raise (HTTPException 400 duplicate)
  | PgError (ForeignKeyViolation _), Some detail =>
      raise (HTTPException 404 detail)
  | _, _ => raise e
  end.

(** The [except] clause of the delete endpoints. *)
Definition on_delete (referenced : string) (e : exn) {R} : M R :=
  match e with
  | PgError (ForeignKeyViolation _) => raise (HTTPException 400 referenced)
  | _ => raise e
  end.

(** *** Business verticals *)

Definition create_vertical (vertical : BusinessVerticalCreate)
    : M BusinessVertical :=
  try_except
    (new_vertical <- Crud.create_business_vertical vertical ;;
     model_validate new_vertical)
    (λ e, on_create "Business vertical name already exists." None e).

Definition read_vertical (vertical_id : Z) : M BusinessVertical :=
  db_vertical <- Crud.get_business_vertical vertical_id ;;
  found 404 "Business vertical not found" db_vertical.

Definition update_vertical (vertical_id : Z)
    (vertical : BusinessVerticalCreate) : M BusinessVertical :=
  try_except
    (updated_vertical <- Crud.update_business_vertical vertical_id vertical ;;
     found 404 "Business vertical not found" updated_vertical)
    (λ e, on_update "Business vertical name already exists." None e).

Definition delete_vertical (vertical_id : Z) : M BusinessVertical :=
  try_except
    (deleted_vertical <- Crud.delete_business_vertical vertical_id ;;
     found 404 "Business vertical not found" deleted_vertical)
    (λ e, on_delete
            "Cannot delete vertical, it is referenced by business units." e).

(** *** Business units *)

Definition create_unit (unit : BusinessUnitCreate) : M BusinessUnit :=
  try_except
    (new_unit <- Crud.create_business_unit unit ;;
     model_validate new_unit)
    (λ e, on_create "Business unit name already exists."
            (Some "Business vertical not found."%string) e).

Definition read_unit (unit_id : Z) : M BusinessUnit :=
  db_unit <- Crud.get_business_unit unit_id ;;
  found 44 "Business unit not found" db_unit.

Definition update_unit (unit_id : Z) (unit : BusinessUnitCreate)
    : M BusinessUnit :=
  try_except
    (updated_unit <- Crud.update_business_unit unit_id unit ;;
     found 404 "Business unit not found" updated_unit)
    (λ e, on_update "Business unit name already exists."
            (Some "Business vertical not found."%string) e).

Definition delete_unit (unit_id : Z) : M BusinessUnit :=
  try_except
    (deleted_unit <- Crud.delete_business_unit unit_id ;;
     found 404 "Business unit not found" deleted_unit)
    (λ e, on_delete "Cannot delete unit, it is referenced by clients." e).

(** *** Clients *)

Definition create_client (client : ClientCreate) : M Client :=
  try_except
    (new_client <- Crud.create_client client ;;
     model_validate new_client)
    (λ e, on_create "Client name already exists."
            (Some "Business unit not found."%string) e).

Definition read_client (client_id : Z) : M Client :=
  db_client <- Crud.get_client client_id ;;
  found 404 "Client not found" db_client.

Definition update_client (client_id : Z) (client : ClientCreate)
    : M Client :=
  try_except
    (updated_client <- Crud.update_client client_id client ;;
     found 404 "Client not found" updated_client)
    (λ e, on_update "Client name already exists."
            (Some "Business unit not found."%string) e).

Definition delete_client (client_id : Z) : M Client :=
  try_except
    (deleted_client <- Crud.delete_client client_id ;;
     found 44 "Client not found" deleted_client)
    (λ e, on_delete "Cannot delete client, it is referenced by forecasts." e).

(** *** Work types *)

Definition create_work_type (work_type : WorkTypeCreate) : M WorkType :=
  try_except
    (new_work_type <- Crud.create_work_type work_type ;;
     model_validate new_work_type)
    (λ e, on_create "Work type name already exists."
            (Some "Work type origin not found."%string) e).

Definition update_work_type (work_type_id : Z) (work_type : WorkTypeCreate)
    : M WorkType :=
  try_except
    (updated_work_type <- Crud.update_work_type work_type_id work_type ;;
     found 404 "Work type not found" updated_work_type)
    (λ e, on_update "Work type name already exists."
            (Some "Work type origin not found."%string) e).

Definition delete_work_type (work_type_id : Z) : M WorkType :=
  try_except
    (deleted_work_type <- Crud.delete_work_type work_type_id ;;
     found 404 "Work type not found" deleted_work_type)
    (λ e, on_delete
            "Cannot delete work type, it is referenced by forecasts." e).

(** *** Work type origins *)

Definition create_work_type_origin_type
    (origin_type : WorkTypeOriginTypeCreate) : M WorkTypeOriginType :=
  try_except
    (new_origin_type <- Crud.create_work_type_origin_type origin_type ;;
     model_validate new_origin_type)
    (λ e, on_create "Work type origin name already exists." None e).

Definition update_work_type_origin_type (origin_type_id : Z)
    (origin_type : WorkTypeOriginTypeCreate) : M WorkTypeOriginType :=
  try_except
    (updated_origin_type <-
       Crud.update_work_type_origin_type origin_type_id origin_type ;;
     found 404 "Work type origin not found" updated_origin_type)
    (λ e, on_update "Work type origin name already exists." None e).

Definition delete_work_type_origin_type (origin_type_id : Z)
    : M WorkTypeOriginType :=
  try_except
    (deleted_origin_type <-
       Crud.delete_work_type_origin_type origin_type_id ;;
     found 404 "Work type origin not found" deleted_origin_type)
    (λ e, on_delete "Cannot delete, it is referenced by work types." e).

(** *** Forecasts *)

Definition create_forecast (forecast : ForecastCreate) : M Forecast :=
  try_except
    (new_forecast <- Crud.create_forecast forecast ;;
     model_validate new_forecast)
    (λ e, match e with
          | PgError (UniqueViolation _) =>
              raise (HTTPException 400
                "This forecast (client, BU, work type, date) already exists.")
          | PgError (ForeignKeyViolation constraint_name) =>
              raise (HTTPException 404
                       ("Invalid foreign key: " +:+ constraint_name))
          | _ => raise (HTTPException 500 (str e))
          end).

Definition update_forecast (forecast_id : Z)
    (forecast_update : ForecastUpdate) : M Forecast :=
  updated_forecast <-
    Crud.update_forecast_amount forecast_id forecast_update ;;
  found 404 "Forecast not found" updated_forecast.

Definition delete_forecast (forecast_id : Z) : M Forecast :=
  deleted_forecast <- Crud.delete_forecast forecast_id ;;
  found 404 "Forecast not found" deleted_forecast.

End Api.

(** ** The REST surface as a whole *)

Module Rest.
Import Schemas Db Py.

Inductive call :=
| CreateVertical (vertical : BusinessVerticalCreate)
| ReadVertical (vertical_id : Z)
| UpdateVertical (vertical_id : Z) (vertical : BusinessVerticalCreate)
| DeleteVertical (vertical_id : Z)
| CreateUnit (unit : BusinessUnitCreate)
| ReadUnit (unit_id : Z)
| UpdateUnit (unit_id : Z) (unit : BusinessUnitCreate)
| DeleteUnit (unit_id : Z)
| CreateClient (client : ClientCreate)
| ReadClient (client_id : Z)
| UpdateClient (client_id : Z) (client : ClientCreate)
| DeleteClient (client_id : Z)
| CreateWorkType (work_type : WorkTypeCreate)
| UpdateWorkType (work_type_id : Z) (work_type : WorkTypeCreate)
| DeleteWorkType (work_type_id : Z)
| CreateWorkTypeOriginType (origin_type : WorkTypeOriginTypeCreate)
| UpdateWorkTypeOriginType (origin_type_id : Z)
    (origin_type : WorkTypeOriginTypeCreate)
| DeleteWorkTypeOriginType (origin_type_id : Z)
| CreateForecast (forecast : ForecastCreate)
| UpdateForecast (forecast_id : Z) (forecast_update : ForecastUpdate)
| DeleteForecast (forecast_id : Z).

(** Only the way a function ends matters here. *)
Definition forget {A} (m : M A) : M unit := λ c,
  match m c with
  | (c', Return _) => (c', Return tt)
  | (c', Raise e) => (c', Raise e)
  end.

Definition forget_row {R} (m : M (option R)) : M (option unit) := λ c,
  match m c with
  | (c', Return row) => (c', Return ((λ _, tt) <$> row))
  | (c', Raise e) => (c', Raise e)
  end.

(** The endpoint that serves a call. *)
Definition endpoint (k : call) : M unit :=
  match k with
  | CreateVertical v => forget (Api.create_vertical v)
  | ReadVertical id => forget (Api.read_vertical id)
  | UpdateVertical id v => forget (Api.update_vertical id v)
  | DeleteVertical id => forget (Api.delete_vertical id)
  | CreateUnit u => forget (Api.create_unit u)
  | ReadUnit id => forget (Api.read_unit id)
  | UpdateUnit id u => forget (Api.update_unit id u)
  | DeleteUnit id => forget (Api.delete_unit id)
  | CreateClient c => forget (Api.create_client c)
  | ReadClient id => forget (Api.read_client id)
  | UpdateClient id c => forget (Api.update_client id c)
  | DeleteClient id => forget (Api.delete_client id)
  | CreateWorkType w => forget (Api.create_work_type w)
  | UpdateWorkType id w => forget (Api.update_work_type id w)
  | DeleteWorkType id => forget (Api.delete_work_type id)
  | CreateWorkTypeOriginType o =>
      forget (Api.create_work_type_origin_type o)
  | UpdateWorkTypeOriginType id o =>
      forget (Api.update_work_type_origin_type id o)
  | DeleteWorkTypeOriginType id =>
      forget (Api.delete_work_type_origin_type id)
  | CreateForecast f => forget (Api.create_forecast f)
  | UpdateForecast id u => forget (Api.update_forecast id u)
  | DeleteForecast id => forget (Api.delete_forecast id)
  end.

(** The function of [crud.py] the endpoint calls. *)
Definition crud (k : call) : M (option unit) :=
  match k with
  | CreateVertical v => forget_row (Crud.create_business_vertical v)
  | ReadVertical id => forget_row (Crud.get_business_vertical id)
  | UpdateVertical id v => forget_row (Crud.update_business_vertical id v)
  | DeleteVertical id => forget_row (Crud.delete_business_vertical id)
  | CreateUnit u => forget_row (Crud.create_business_unit u)
  | ReadUnit id => forget_row (Crud.get_business_unit id)
  | UpdateUnit id u => forget_row (Crud.update_business_unit id u)
  | DeleteUnit id => forget_row (Crud.delete_business_unit id)
  | CreateClient c => forget_row (Crud.create_client c)
  | ReadClient id => forget_row (Crud.get_client id)
  | UpdateClient id c => forget_row (Crud.update_client id c)
  | DeleteClient id => forget_row (Crud.delete_client id)
  | CreateWorkType w => forget_row (Crud.create_work_type w)
  | UpdateWorkType id w => forget_row (Crud.update_work_type id w)
  | DeleteWorkType id => forget_row (Crud.delete_work_type id)
  | CreateWorkTypeOriginType o =>
      forget_row (Crud.create_work_type_origin_type o)
  | UpdateWorkTypeOriginType id o =>
      forget_row (Crud.update_work_type_origin_type id o)
  | DeleteWorkTypeOriginType id =>
      forget_row (Crud.delete_work_type_origin_type id)
  | CreateForecast f => forget_row (Crud.create_forecast f)
  | UpdateForecast id u => forget_row (Crud.update_forecast_amount id u)
  | DeleteForecast id => forget_row (Crud.delete_forecast id)
  end.

Definition is_delete (k : call) : bool :=
  match k with
  | DeleteVertical _ | DeleteUnit _ | DeleteClient _ | DeleteWorkType _
  | DeleteWorkTypeOriginType _ | DeleteForecast _ => true
  | _ => false
  end.

Definition is_create (k : call) : bool :=
  match k with
  | CreateVertical _ | CreateUnit _ | CreateClient _ | CreateWorkType _
  | CreateWorkTypeOriginType _ | CreateForecast _ => true
  | _ => false
  end.

(** The domain error kinds of the specification. *)
Inductive error_kind :=
| Duplicate            (* DuplicateName / DuplicateForecast *)
| InvalidReference
| ReferencedByChild
| NotFound.

(** The kind of failure a call runs into, in the words of the
    specification's taxonomy (its section 7) read on what the data layer
    does for the call: a violated unique constraint is
    Duplicate; a violated foreign key is ReferencedByChild when a delete
    is blocked and InvalidReference otherwise; an id that does not resolve
    (no row comes back from a read, an update or a delete) is NotFound. *)
Definition kind (k : call) (conn : connection) : option error_kind :=
  match (crud k conn).2 with
  | Raise (PgError (UniqueViolation _)) => Some Duplicate
  | Raise (PgError (ForeignKeyViolation _)) =>
      Some (if is_delete k then ReferencedByChild else InvalidReference)
  | Return None => if is_create k then None else Some NotFound
  | _ => None
  end.

(** The status the endpoints give to each kind. *)
Definition status_of_kind (e : error_kind) : Z :=
  match e with
  | Duplicate => 400
  | ReferencedByChild => 400
  | InvalidReference => 404
  | NotFound => 404
  end.

(** The two endpoints whose "not found" status is written [44]. *)
Definition writes_44 (k : call) : bool :=
  match k with
  | ReadUnit _ | DeleteClient _ => true
  | _ => false
  end.

End Rest.


(** ** The constraints of the schema, as a property of the tables

    What [CREATE_TABLES_SQL] declares, table by table: the primary key, the
    unique name (for forecasts, [unique_forecast]), the foreign keys, and the
    sequence of the [SERIAL] column being ahead of the ids in use. *)

Module Integrity.
Import Schemas Db.

Record consistent (t : tables) (s : sequences) : Prop := mkConsistent {
  bv_pkey : NoDup (bv_id <$> business_vertical t);
  bv_name_key : NoDup (bv_name <$> business_vertical t);
  bv_serial :
    Forall (λ r, bv_id r < business_vertical_seq s) (business_vertical t);
  wto_pkey : NoDup (wto_id <$> work_type_origin_type t);
  wto_name_key : NoDup (wto_name <$> work_type_origin_type t);
  wto_serial :
    Forall (λ r, wto_id r < work_type_origin_type_seq s)
      (work_type_origin_type t);
  bu_pkey : NoDup (bu_id <$> business_unit t);
  bu_name_key : NoDup (bu_name <$> business_unit t);
  bu_serial : Forall (λ r, bu_id r < business_unit_seq s) (business_unit t);
  bu_vertical_fkey :
    Forall (λ r, bu_vertical_id r ∈ (bv_id <$> business_vertical t))
      (business_unit t);
  wt_pkey : NoDup (wt_id <$> work_type t);
  wt_name_key : NoDup (wt_name <$> work_type t);
  wt_serial : Forall (λ r, wt_id r < work_type_seq s) (work_type t);
  wt_origin_fkey :
    Forall (λ r, wt_origin_id r ∈ (wto_id <$> work_type_origin_type t))
      (work_type t);
  c_pkey : NoDup (c_id <$> clients t);
  c_name_key : NoDup (c_name <$> clients t);
  c_serial : Forall (λ r, c_id r < clients_seq s) (clients t);
  c_unit_fkey :
    Forall (λ r, c_unit_id r ∈ (bu_id <$> business_unit t)) (clients t);
  f_pkey : NoDup (f_id <$> forecasts t);
  f_unique_forecast : NoDup (unique_forecast <$> forecasts t);
  f_serial : Forall (λ r, f_id r < forecasts_seq s) (forecasts t);
  f_client_fkey :
    Forall (λ r, f_client_id r ∈ (c_id <$> clients t)) (forecasts t);
  f_unit_fkey :
    Forall (λ r, f_unit_id r ∈ (bu_id <$> business_unit t)) (forecasts t);
  f_work_type_fkey :
    Forall (λ r, f_work_type_id r ∈ (wt_id <$> work_type t)) (forecasts t)
}.

(** The calls of a client, one after the other, each on the connection the
    one before gave back to the pool. *)
Definition run (k : Rest.call) (conn : connection) : connection :=
  (Database.get_db_conn (Rest.endpoint k) conn).1.

Definition run_all (ks : list Rest.call) (conn : connection) : connection :=
  foldl (λ c k, run k c) conn ks.

End Integrity.

(** ** The list endpoints

    [crud.get_business_verticals] and its siblings run
    [SELECT * FROM ... LIMIT %s OFFSET %s]; [crud.get_forecasts] runs the join
    of the forecasts with their client, work type, business unit and that
    unit's vertical, ordered by the four names and the date.  None of the list
    endpoints of [fx_api.py] has a [try]: what the statement raises leaves
    the endpoint. *)

Module Listing.
Import Schemas Db.

(** What a list endpoint ends with: the rows, or the [DataError] of a
    statement the server rejects (a [LIMIT] or [OFFSET] that is negative or
    does not fit a [bigint]), or the error of a statement sent on an aborted
    transaction. *)
Inductive listed (R : Type) :=
| Rows (rows : list R)
| DataError
| TransactionAborted.
Arguments Rows {R} _.
Arguments DataError {R}.
Arguments TransactionAborted {R}.

(** A number [LIMIT] and [OFFSET] accept. *)
Definition row_count (n : Z) : Prop := 0 ≤ n < 2 ^ 63.

(** [LIMIT limit OFFSET skip] on the rows of a query. *)
Definition limit_offset {R} (limit skip : Z) (rows : list R)
    : option (list R) :=
  if decide (row_count limit ∧ row_count skip)
  then Some (take (Z.to_nat limit) (drop (Z.to_nat skip) rows))
  else None.

(** [cur.execute(query, (limit, skip))], [cur.fetchall()], on a borrowed
    connection that goes back to the pool afterwards: nothing is committed,
    and the pool rolls the transaction back. *)
Definition select_page {R} (query : tables → list R) (skip limit : Z)
    (conn : connection) : connection * listed R :=
  match status conn with
  | InError => (putconn conn, TransactionAborted)
  | _ =>
      match limit_offset limit skip (query (working conn)) with
      | None =>
          (putconn (mkConnection (committed conn) (working conn) (seqs conn)
                      InError),
           DataError)
      | Some rows =>
          (putconn (mkConnection (committed conn) (working conn) (seqs conn)
                      InTransaction),
           Rows rows)
      end
  end.

(** The five lookup listings; the rows come in the order the table holds
    them. *)
Definition read_verticals (skip limit : Z) :=
  select_page business_vertical skip limit.
Definition read_units (skip limit : Z) :=
  select_page business_unit skip limit.
Definition read_clients (skip limit : Z) :=
  select_page clients skip limit.
Definition read_work_types (skip limit : Z) :=
  select_page work_type skip limit.
Definition read_work_type_origin_types (skip limit : Z) :=
  select_page work_type_origin_type skip limit.

(** The defaults of every list endpoint: [skip: int = 0, limit: int = 100]. *)
Definition default_skip : Z := 0.
Definition default_limit : Z := 100.

(** The join of [get_forecasts]: a forecast gives one row for every
    combination of a client, a work type and a business unit of the ids it
    names and a vertical of the id that unit names. *)
Definition joined (t : tables) : list App.ForecastDetail :=
  f ← forecasts t;
  c ← filter (λ c, c_id c = f_client_id f) (clients t);
  wt ← filter (λ wt, wt_id wt = f_work_type_id f) (work_type t);
  bu ← filter (λ bu, bu_id bu = f_unit_id f) (business_unit t);
  bv ← filter (λ bv, bv_id bv = bu_vertical_id bu) (business_vertical t);
  [App.mkForecastDetail (f_id f) (bv_name bv) (bu_name bu) (c_name c)
     (wt_name wt) (f_dt f) (f_amount f)].

(** The row of the detail listing a forecast gives, with the rows it names. *)
Definition detail_of (f : Forecast) (c : Client) (wt : WorkType)
    (bu : BusinessUnit) (bv : BusinessVertical) : App.ForecastDetail :=
  App.mkForecastDetail (f_id f) (bv_name bv) (bu_name bu) (c_name c)
    (wt_name wt) (f_dt f) (f_amount f).

Definition names_resolved (t : tables) (f : Forecast)
    (row : App.ForecastDetail) : Prop :=
  ∃ c wt bu bv,
    c ∈ clients t ∧ c_id c = f_client_id f ∧
    wt ∈ work_type t ∧ wt_id wt = f_work_type_id f ∧
    bu ∈ business_unit t ∧ bu_id bu = f_unit_id f ∧
    bv ∈ business_vertical t ∧ bv_id bv = bu_vertical_id bu ∧
    row = detail_of f c wt bu bv.

Definition date_le (d1 d2 : date) : Prop :=
  year d1 < year d2 ∨
  (year d1 = year d2 ∧
   (month d1 < month d2 ∨ (month d1 = month d2 ∧ day d1 ≤ day d2))).

#[global] Instance date_le_dec d1 d2 : Decision (date_le d1 d2).
Proof. unfold date_le. apply _. Defined.

Section OrderBy.
(** The order of the database's collation on names. *)
Context (collate : relation string) `{!∀ a b, Decision (collate a b)}.

(** One column of an [ORDER BY]: before in this column, or equal in it and
    ordered by the columns that follow. *)
Definition then_by (a b : string) (rest : Prop) : Prop :=
  (collate a b ∧ a ≠ b) ∨ (a = b ∧ rest).

(** [ORDER BY bv.business_vertical_name, bu.business_unit_name,
    c.client_name, wt.work_type_name, f.dt] *)
Definition order_by (x y : App.ForecastDetail) : Prop :=
  then_by (App.business_vertical_name x) (App.business_vertical_name y)
    (then_by (App.business_unit_name x) (App.business_unit_name y)
       (then_by (App.client_name x) (App.client_name y)
          (then_by (App.work_type_name x) (App.work_type_name y)
             (date_le (App.dt x) (App.dt y))))).

#[global] Instance order_by_dec x y : Decision (order_by x y).
Proof. unfold order_by, then_by. apply _. Defined.

(** The rows of the join in the order of the [ORDER BY].  Rows that agree on
    all five columns come in an order the database does not promise; they
    are left here in the order of the join. *)
Definition get_forecasts (t : tables) : list App.ForecastDetail :=
  merge_sort order_by (joined t).

(** [GET /forecasts/] *)
Definition read_forecasts (skip limit : Z) :=
  select_page get_forecasts skip limit.

End OrderBy.

(** A collation to compute with: names compared by their encodings. *)
Definition by_code : relation string :=
  λ a b, (encode a ≤ encode b)%positive.

#[global] Instance by_code_dec a b : Decision (by_code a b).
Proof. unfold by_code. apply _. Defined.

End Listing.

(** ** [app.py]: the "Add New Forecast" form *)

Module AddForecast.
Import Schemas.

(** What the section ends with: the success message, the error message of a
    refused or failed request, the error shown when the client's row is not
    found, or the [KeyError] of a column or key that is missing. *)
Inductive result :=
| Added
| Refused (status_code : Z) (detail : string)
| RequestFailed (e : string)
| NoBusinessUnit
| KeyError (key : string).

(** [dict(zip(names, ids))]: of two rows of the same name the later one
    stays. *)
Definition dict_zip (pairs : list (string * Z)) : gmap string Z :=
  list_to_map (reverse pairs).

(** [df[column]] of the lookup frames: a frame built from an empty JSON list,
    or the empty frame a failed fetch gives, has no columns. *)
Definition client_map (df_clients : list Client)
    : result + gmap string Z :=
  match df_clients with
  | [] => inl (KeyError "client_name")
  | _ => inr (dict_zip ((λ c, (c_name c, c_id c)) <$> df_clients))
  end.

Definition work_type_map (df_work_types : list WorkType)
    : result + gmap string Z :=
  match df_work_types with
  | [] => inl (KeyError "work_type_name")
  | _ => inr (dict_zip ((λ w, (wt_name w, wt_id w)) <$> df_work_types))
  end.

(** The body of the POST. *)
Definition forecast_payload (client_id business_unit_id work_type_id : Z)
    (forecast_date : date) (forecast_amount : Z)
    (client_name work_type_name : string) : json :=
  [("client_id"%string, JInt client_id);
   ("business_unit_id"%string, JInt business_unit_id);
   ("work_type_id"%string, JInt work_type_id);
   ("dt"%string, JDate forecast_date);
   ("forecast_amount"%string, JInt forecast_amount);
   ("forecast_name"%string, JStr (client_name +:+ " - " +:+ work_type_name))].

Section Submit.
Context {S : Type}.
Variable serve : request → S → S * reply.

(** The section from the two maps to the end of [if submitted:], for the
    values the form was submitted with. *)
Definition add_new_forecast (df_clients : list Client)
    (df_work_types : list WorkType) (client_name work_type_name : string)
    (forecast_date : date) (forecast_amount : Z) (st : session S)
    : session S * result :=
  match client_map df_clients with
  | inl e => (st, e)
  | inr client_map =>
  match work_type_map df_work_types with
  | inl e => (st, e)
  | inr work_type_map =>
  match client_map !! client_name with
  | None => (st, KeyError client_name)
  | Some client_id =>
  match work_type_map !! work_type_name with
  | None => (st, KeyError work_type_name)
  | Some work_type_id =>
  (* [df_clients[df_clients['client_id'] == client_id].iloc[0]] *)
  match head (filter (λ c, c_id c = client_id) df_clients) with
  | None => (st, NoBusinessUnit)
  | Some client_row =>
      let '(st', r) :=
        http serve
          (POST "forecasts"
             (forecast_payload client_id (c_unit_id client_row) work_type_id
                forecast_date forecast_amount client_name work_type_name))
          st in
      match r with
      | Response status_code detail =>
          if decide (status_code = 200) then (st', Added)
          else (st', Refused status_code detail)
      | RequestException e => (st', RequestFailed e)
      end
  end end end end end.

End Submit.

End AddForecast.

(** * Properties *)

(** ** Lists *)

Section ListFacts.
Context {A B : Type}.

Lemma nil_no_elem (l : list A) : (∀ x, x ∉ l) → l = [].
Proof. destruct l as [|x l]; [done|]. intros H. destruct (H x). left. Qed.

Lemma NoDup_fmap_eq (f : A → B) (l : list A) x y :
  NoDup (f <$> l) → x ∈ l → y ∈ l → f x = f y → x = y.
Proof.
  induction l as [|z l IH]; [by intros _ ?%elem_of_nil|].
  rewrite fmap_cons, NoDup_cons, !elem_of_cons.
  intros [Hz Hnd] [->|Hx] [->|Hy] Hf; try done.
  - destruct Hz. rewrite Hf. by apply list_elem_of_fmap_2.
  - destruct Hz. rewrite <- Hf. by apply list_elem_of_fmap_2.
  - by apply IH.
Qed.

Lemma list_find_fst_NoDup `{EqDecision A} (l : list (A * B)) k v :
  NoDup (fst <$> l) → (k, v) ∈ l →
  (λ x, x.2.2) <$> list_find (λ r, r.1 = k) l = Some v.
Proof.
  induction l as [|[k' v'] l IH]; [by intros _ ?%elem_of_nil|].
  rewrite fmap_cons, NoDup_cons, elem_of_cons. intros [Hk Hnd] Hin.
  simpl. case_decide as Heq; simpl in Heq.
  - subst k'. destruct Hin as [[= ->]|Hin]; [done|].
    destruct Hk. by apply (list_elem_of_fmap_2 fst l (k, v)).
  - destruct Hin as [[= -> ->]|Hin]; [done|].
    specialize (IH Hnd Hin).
    destruct (list_find _ l) as [[i [k1 v1]]|]; simpl in *; congruence.
Qed.

Lemma list_find_fst_elem `{EqDecision A} (l : list (A * B)) k v :
  (λ x, x.2.2) <$> list_find (λ r, r.1 = k) l = Some v → (k, v) ∈ l.
Proof.
  destruct (list_find _ l) as [[i [k1 v1]]|] eqn:Hf; [|done].
  intros [= <-]. apply list_find_Some in Hf as (Hl & Hk & _).
  simpl in Hk. subst k1. by eapply list_elem_of_lookup_2.
Qed.

End ListFacts.

(** ** Accounting of a dispatch loop *)

Section Grows.
Context {S : Type}.
Variable serve : request → S → S * reply.
Implicit Types st : session S.

Lemma errors_app l1 l2 : errors (l1 ++ l2) = (errors l1 + errors l2)%nat.
Proof. unfold errors. by rewrite filter_app, length_app. Qed.

Local Ltac no_final :=
  first [ intros; apply not_elem_of_nil
        | intros; rewrite list_elem_of_singleton; discriminate ].

Lemma grows_refl st n : grows st st n n [].
Proof.
  split; [by rewrite app_nil_r|]. exists []. rewrite app_nil_r.
  split_and!; [done|done|no_final..].
Qed.

Lemma grows_trans st1 st2 st3 n1 n2 n3 r1 r2 :
  grows st1 st2 n1 n2 r1 → grows st2 st3 n2 n3 r2 →
  grows st1 st3 n1 n3 (r1 ++ r2).
Proof.
  intros (Hs1 & m1 & Hm1 & Hc1 & Hi1 & Hk1) (Hs2 & m2 & Hm2 & Hc2 & Hi2 & Hk2).
  split; [by rewrite Hs2, Hs1, app_assoc|].
  exists (m1 ++ m2). rewrite Hm2, Hm1, app_assoc, errors_app, length_app.
  split_and!; [done|lia| |].
  - rewrite elem_of_app. tauto.
  - intros u d. rewrite elem_of_app. specialize (Hk1 u d).
    specialize (Hk2 u d). tauto.
Qed.

Lemma grows_dispatch context id rq st n st' n' :
  dispatch serve context id rq st n = (st', n') →
  grows st st' n n' [rq].
Proof.
  unfold dispatch, http. destruct (serve rq (server st)) as [s' r].
  destruct r as [code detail|e]; [case_decide|]; intros [= <- <-]; simpl;
    (split; [done|]).
  - exists []. rewrite app_nil_r.
    split_and!; [done|unfold errors; simpl; lia|no_final..].
  - eexists [_]. split_and!; [done|unfold errors; simpl; lia|no_final..].
  - eexists [_]. split_and!; [done|unfold errors; simpl; lia|no_final..].
Qed.

Lemma grows_shift k st st' n n' reqs :
  grows st st' n n' reqs → grows st st' (k + n) (k + n') reqs.
Proof.
  intros (Hs & m & Hm & Hc & Hi & Hk). split; [done|]. exists m.
  split_and!; [done|lia|done..].
Qed.

Lemma grows_warning name st n :
  grows st (show (Warning_added_in_editor name) st) n n [].
Proof.
  split; [by rewrite app_nil_r|]. eexists [_].
  split_and!; [done|unfold errors; simpl; lia|no_final..].
Qed.

End Grows.

(** ** The forecast page *)

Module AppFacts.
Import App.

Lemma elem_of_merge_both orig ed o e :
  both o e ∈ merge_outer orig ed ↔
  o ∈ orig ∧ e ∈ ed ∧ key_new e = key_orig o.
Proof.
  unfold merge_outer.
  rewrite elem_of_app, list_elem_of_bind, list_elem_of_fmap. split.
  - intros [(o' & Hin & Ho') | (e' & Heq & _)]; [|discriminate].
    destruct (filter _ ed) as [|e0 es] eqn:Hf.
    + apply list_elem_of_singleton in Hin. discriminate.
    + rewrite <- Hf in Hin.
      apply list_elem_of_fmap in Hin as (e' & [= -> ->] & He').
      apply list_elem_of_filter in He' as [? ?]. done.
  - intros (Ho & He & Hk). left. exists o. split; [|done].
    assert (e ∈ filter (λ e, key_new e = key_orig o) ed) as Hin
      by (by apply list_elem_of_filter).
    destruct (filter _ ed) eqn:Hf; [by apply elem_of_nil in Hin|].
    by apply list_elem_of_fmap_2.
Qed.

Lemma elem_of_merge_left_only orig ed o :
  left_only o ∈ merge_outer orig ed ↔
  o ∈ orig ∧ ∀ e, e ∈ ed → key_new e ≠ key_orig o.
Proof.
  unfold merge_outer.
  rewrite elem_of_app, list_elem_of_bind, list_elem_of_fmap. split.
  - intros [(o' & Hin & Ho') | (e' & Heq & _)]; [|discriminate].
    destruct (filter _ ed) as [|e0 es] eqn:Hf.
    + apply list_elem_of_singleton in Hin as [= ->]. split; [done|].
      intros e He Hk.
      assert (e ∈ filter (λ e, key_new e = key_orig o') ed) as Hin
        by (by apply list_elem_of_filter).
      rewrite Hf in Hin. by apply elem_of_nil in Hin.
    + apply list_elem_of_fmap in Hin as (e' & [=] & _).
  - intros (Ho & Hno). left. exists o. split; [|done].
    destruct (filter _ ed) as [|e0 es] eqn:Hf;
      [apply list_elem_of_singleton; done|].
    assert (e0 ∈ filter (λ e, key_new e = key_orig o) ed) as Hin
      by (rewrite Hf; left).
    apply list_elem_of_filter in Hin as [Hk He]. by destruct (Hno e0).
Qed.

Lemma elem_of_merge_right_only orig ed e :
  right_only e ∈ merge_outer orig ed ↔
  e ∈ ed ∧ key_new e ∉ (key_orig <$> orig).
Proof.
  unfold merge_outer.
  rewrite elem_of_app, list_elem_of_bind, list_elem_of_fmap. split.
  - intros [(o' & Hin & Ho') | (e' & [= ->] & Hin)].
    + destruct (filter _ ed) as [|e0 es] eqn:Hf.
      * apply list_elem_of_singleton in Hin. discriminate.
      * apply list_elem_of_fmap in Hin as (e' & [=] & _).
    + apply list_elem_of_filter in Hin as [? ?]. done.
  - intros [He Hk]. right. exists e. split; [done|].
    by apply list_elem_of_filter.
Qed.

Section Loops.
Context {S : Type}.
Variable serve : request → S → S * reply.
Implicit Types st : session S.

Lemma forecast_update_loop_grows upd st n st' n' x :
  update_loop serve upd st n = (st', n', x) →
  ∃ reqs, grows st st' n n' reqs ∧
          reqs `prefix_of` omap put_of upd ∧
          (x = None → reqs = omap put_of upd) ∧
          ((∀ o e, both o e ∈ upd → is_Some (e_forecast_amount e)) →
           x = None).
Proof.
  revert st n.
  induction upd as [|r upd IH]; intros st n Hl; simpl in Hl; revert Hl.
  - intros [= <- <- <-]. exists []. split_and!; try done.
    apply grows_refl.
  - destruct r as [o e|o|e].
    + destruct (e_forecast_amount e) as [a|] eqn:Ha.
      * destruct (dispatch _ _ _ _ _ _) as [st1 n1] eqn:Hd.
        apply grows_dispatch in Hd. intros Hl.
        apply IH in Hl as (reqs & Hg & Hp & Hx & Hn).
        exists ([PUT "forecasts" (forecast_id o)
                   [("forecast_amount"%string, JInt a)]] ++ reqs).
        assert (omap put_of (both o e :: upd) =
                PUT "forecasts" (forecast_id o)
                  [("forecast_amount"%string, JInt a)] :: omap put_of upd)
          as -> by (simpl; by rewrite Ha).
        split_and!.
        -- eapply grows_trans; eauto.
        -- simpl. by apply prefix_cons.
        -- intros ->. simpl. by rewrite Hx.
        -- intros Hall. apply Hn. intros o' e' Hin.
           apply (Hall o' e'). by right.
      * intros [= <- <- <-]. exists []. split_and!.
        -- apply grows_refl.
        -- apply prefix_nil.
        -- done.
        -- intros Hall. destruct (Hall o e) as [a Ha']; [left|].
           congruence.
    + intros Hl. apply IH in Hl as (reqs & Hg & Hp & Hx & Hn).
      exists reqs. split_and!; try done.
      intros Hall. apply Hn. intros o' e' Hin. apply (Hall o' e').
      by right.
    + intros Hl. apply IH in Hl as (reqs & Hg & Hp & Hx & Hn).
      exists reqs. split_and!; try done.
      intros Hall. apply Hn. intros o' e' Hin. apply (Hall o' e').
      by right.
Qed.

Lemma forecast_delete_loop_grows dels st n st' n' :
  delete_loop serve dels st n = (st', n') →
  grows st st' n n' (omap del_of dels).
Proof.
  revert st n. induction dels as [|r dels IH]; intros st n; simpl.
  - intros [= <- <-]. apply grows_refl.
  - destruct r as [o e|o|e]; [by apply IH| |by apply IH].
    destruct (dispatch _ _ _ _ _ _) as [st1 n1] eqn:Hd.
    apply grows_dispatch in Hd. intros Hl. apply IH in Hl.
    change (?x :: ?l) with ([x] ++ l). eapply grows_trans; eauto.
Qed.

Lemma forecast_elem_of_puts orig ed rq :
  rq ∈ omap put_of (filter is_update (merge_outer orig ed)) ↔
  ∃ o e a, o ∈ orig ∧ e ∈ ed ∧ key_new e = key_orig o ∧
           e_forecast_amount e = Some a ∧ forecast_amount o ≠ a ∧
           rq = PUT "forecasts" (forecast_id o)
                  [("forecast_amount"%string, JInt a)].
Proof.
  rewrite list_elem_of_omap. split.
  - intros (r & Hr & Hput). apply list_elem_of_filter in Hr as [Hu Hr].
    destruct r as [o e|o|e]; try done.
    apply elem_of_merge_both in Hr as (Ho & He & Hk).
    simpl in Hput, Hu. unfold amount_differs in Hu.
    destruct (e_forecast_amount e) as [a|] eqn:Ha; [|done].
    injection Hput as <-. by exists o, e, a.
  - intros (o & e & a & Ho & He & Hk & Ha & Hne & ->).
    exists (both o e). split.
    + apply list_elem_of_filter. split.
      * simpl. unfold amount_differs. by rewrite Ha.
      * by apply elem_of_merge_both.
    + simpl. by rewrite Ha.
Qed.

Lemma forecast_elem_of_dels orig ed rq :
  rq ∈ omap del_of (filter is_left_only (merge_outer orig ed)) ↔
  ∃ o, o ∈ orig ∧ (∀ e, e ∈ ed → key_new e ≠ key_orig o) ∧
       rq = DELETE "forecasts" (forecast_id o).
Proof.
  rewrite list_elem_of_omap. split.
  - intros (r & Hr & Hdel). apply list_elem_of_filter in Hr as [Hu Hr].
    destruct r as [o e|o|e]; try done.
    apply elem_of_merge_left_only in Hr as (Ho & Hno).
    injection Hdel as <-. by exists o.
  - intros (o & Ho & Hno & ->). exists (left_only o). split; [|done].
    apply list_elem_of_filter. split; [done|].
    by apply elem_of_merge_left_only.
Qed.

(** What one run of the handler does. *)
Lemma save_changes_run orig ed st st' x :
  save_changes serve orig ed st = (st', x) →
  ∃ puts dels u d st2,
    grows st st2 0 (u + d) (puts ++ dels) ∧
    puts `prefix_of` omap put_of (filter is_update (merge_outer orig ed)) ∧
    (x = None →
       puts = omap put_of (filter is_update (merge_outer orig ed)) ∧
       dels = omap del_of (filter is_left_only (merge_outer orig ed)) ∧
       st' = report u d st2) ∧
    (x ≠ None → dels = [] ∧ st' = st2) ∧
    (amounts_present ed → x = None).
Proof.
  unfold save_changes.
  destruct (update_loop _ _ _ _) as [[st1 u] x1] eqn:Hu.
  apply forecast_update_loop_grows in Hu as (puts & Hg & Hp & Hx & Hn).
  assert (amounts_present ed → x1 = None) as Hnone.
  { intros Hall. apply Hn. intros o e Hin.
    apply list_elem_of_filter in Hin as [_ Hin].
    apply elem_of_merge_both in Hin as (_ & He & _). by apply Hall. }
  destruct x1 as [ex|].
  - intros [= <- <-]. exists puts, [], u, 0%nat, st1.
    rewrite app_nil_r, Nat.add_0_r. split_and!; try done.
  - destruct (delete_loop _ _ _ _) as [st2 d] eqn:Hd.
    apply forecast_delete_loop_grows in Hd. intros [= <- <-].
    exists puts, (omap del_of (filter is_left_only (merge_outer orig ed))),
      u, d, st2.
    split_and!; try done.
    + eapply grows_trans; [exact Hg|].
      replace u with (u + 0)%nat at 1 by lia. by apply grows_shift.
    + intros _. split_and!; try done. by apply Hx.
Qed.

End Loops.

Lemma merge_unedited_quiet orig :
  NoDup (forecast_id <$> orig) →
  filter is_update (merge_outer orig (unedited <$> orig)) = [] ∧
  filter is_left_only (merge_outer orig (unedited <$> orig)) = [].
Proof.
  intros Hnd. split; apply nil_no_elem;
    intros r [Hu Hr]%list_elem_of_filter; destruct r as [o e|o|e]; try done.
  - apply elem_of_merge_both in Hr as (Ho & He & Hk).
    apply list_elem_of_fmap in He as (o' & -> & Ho').
    assert (o' = o) as ->.
    { apply (NoDup_fmap_eq forecast_id orig); try done.
      by injection Hk. }
    simpl in Hu. unfold amount_differs in Hu. simpl in Hu. done.
  - apply elem_of_merge_left_only in Hr as (Ho & Hno).
    apply (Hno (unedited o)); [by apply list_elem_of_fmap_2|done].
Qed.

End AppFacts.

(** ** The client page *)

Module ClientsFacts.
Import Clients.

Lemma elem_of_deleted_ids orig ed id :
  id ∈ elements (deleted_ids orig ed) ↔
  id ∈ (fst <$> orig) ∧ Some id ∉ (fst <$> ed).
Proof.
  unfold deleted_ids.
  rewrite elem_of_elements, elem_of_difference, !elem_of_list_to_set,
    list_elem_of_omap.
  split; intros [Ho He]; (split; [done|]).
  - intros ([i r] & Hi & Hin)%list_elem_of_fmap. apply He.
    exists (i, r). simpl in Hi. by subst i.
  - intros ([i r] & Hin & Hi). simpl in Hi. subst i. apply He.
    by apply (list_elem_of_fmap_2 fst ed (Some id, r)).
Qed.

Lemma partner_Some orig index id r0 :
  partner orig index = Some (id, r0) ↔ index = Some id ∧ loc orig id = Some r0.
Proof.
  unfold partner. destruct index as [i|]; simpl.
  - destruct (loc orig i) as [r|] eqn:Hl; simpl.
    + split; [by intros [= <- <-]|]. intros [[= <-] Hr]. congruence.
    + split; [done|]. intros [[= <-] Hr]. congruence.
  - split; [done|]. by intros [? _].
Qed.

Lemma client_elem_of_puts orig (ed : edited_frame) rq :
  rq ∈ omap (put_of orig) ed ↔
  ∃ id row r0, (Some id, row) ∈ ed ∧ loc orig id = Some r0 ∧
               normalised row ≠ normalised r0 ∧
               rq = PUT "clients" id (payload row).
Proof.
  rewrite list_elem_of_omap. unfold put_of. split.
  - intros ([index row] & Hin & Hput). simpl in Hput.
    destruct (partner orig index) as [[id r0]|] eqn:Hp; [|done].
    apply partner_Some in Hp as [-> Hloc]. simpl in Hput.
    case_decide; [|done]. injection Hput as <-. by exists id, row, r0.
  - intros (id & row & r0 & Hin & Hloc & Hne & ->).
    exists (Some id, row). split; [done|].
    change ((Some id, row).1) with (Some id).
    rewrite (proj2 (partner_Some orig (Some id) id r0)) by done. simpl.
    by rewrite decide_True.
Qed.

Section Loops.
Context {S : Type}.
Variable serve : request → S → S * reply.
Implicit Types st : session S.

Lemma client_update_loop_grows orig ed st n st' n' :
  update_loop serve orig ed st n = (st', n') →
  grows st st' n n' (omap (put_of orig) ed).
Proof.
  revert st n.
  induction ed as [|[index row] ed IH]; intros st n Hl; simpl in Hl.
  - injection Hl as <- <-. apply grows_refl.
  - cbn [omap list_omap]. unfold put_of at 1. simpl.
    destruct (partner orig index) as [[id r0]|] eqn:Hp; simpl.
    + case_decide.
      * destruct (dispatch _ _ _ _ _ _) as [st1 n1] eqn:Hd.
        apply grows_dispatch in Hd. apply IH in Hl.
        change (?x :: ?l) with ([x] ++ l). eapply grows_trans; eauto.
      * by apply IH.
    + apply IH in Hl. change (omap (put_of orig) ed)
        with ([] ++ omap (put_of orig) ed).
      eapply grows_trans; [apply grows_warning|done].
Qed.

Lemma update_loop_warns orig ed st n st' n' index row :
  update_loop serve orig ed st n = (st', n') →
  (index, row) ∈ ed → partner orig index = None →
  Warning_added_in_editor (client_name row) ∈ shown st'.
Proof.
  revert st n.
  induction ed as [|[index' row'] ed IH]; intros st n Hl Hin Hp;
    [by apply elem_of_nil in Hin|].
  simpl in Hl. apply elem_of_cons in Hin as [[= <- <-]|Hin].
  - rewrite Hp in Hl. apply client_update_loop_grows in Hl as (_ & m & -> & _).
    simpl. rewrite !elem_of_app, list_elem_of_singleton. tauto.
  - destruct (partner orig index') as [[id r0]|].
    + case_decide; [|by eapply IH].
      destruct (dispatch _ _ _ _ _ _) as [st1 n1]. by eapply IH.
    + by eapply IH.
Qed.

Lemma client_delete_loop_grows ids st n st' n' :
  delete_loop serve ids st n = (st', n') →
  grows st st' n n' (DELETE "clients" <$> ids).
Proof.
  revert st n. induction ids as [|id ids IH]; intros st n Hl; simpl in Hl.
  - injection Hl as <- <-. apply grows_refl.
  - destruct (dispatch _ _ _ _ _ _) as [st1 n1] eqn:Hd.
    apply grows_dispatch in Hd. apply IH in Hl.
    rewrite fmap_cons. change (?x :: ?l) with ([x] ++ l).
    eapply grows_trans; eauto.
Qed.

(** What one run of the handler does. *)
Lemma save_client_changes_run orig ed st :
  ∃ u d st2,
    grows st st2 0 (u + d)
      (omap (put_of orig) ed
         ++ (DELETE "clients" <$> elements (deleted_ids orig ed))) ∧
    (∀ index row, (index, row) ∈ ed → partner orig index = None →
       Warning_added_in_editor (client_name row) ∈ shown st2) ∧
    save_client_changes serve orig ed st = report u d st2.
Proof.
  unfold save_client_changes.
  destruct (update_loop _ _ _ _ _) as [st1 u] eqn:Hu.
  destruct (delete_loop _ _ _ _) as [st2 d] eqn:Hd.
  exists u, d, st2. split_and!; [|  |done].
  - apply client_update_loop_grows in Hu. apply client_delete_loop_grows in Hd.
    eapply grows_trans; [exact Hu|].
    replace u with (u + 0)%nat at 1 by lia. by apply grows_shift.
  - intros index row Hin Hp. apply client_delete_loop_grows in Hd as (_ & m & -> & _).
    apply elem_of_app. left. by eapply update_loop_warns.
Qed.

Lemma update_loop_same_cells orig l ed st n :
  NoDup (fst <$> orig) → l ⊆ orig → same_cells l ed →
  update_loop serve orig ed st n = (st, n).
Proof.
  intros Hnd Hsub Hsame. revert Hsub.
  induction Hsame as [|[id r] [index row] l ed [Hi Hr] Hsame IH];
    intros Hsub; [done|].
  simpl in Hi, Hr. subst index. simpl. unfold partner, loc. simpl.
  rewrite (list_find_fst_NoDup orig id r Hnd) by (apply Hsub; left).
  simpl. rewrite decide_False by (by intros []).
  apply IH. intros x Hx. apply Hsub. by right.
Qed.

End Loops.

Lemma deleted_ids_same_cells orig ed :
  same_cells orig ed → elements (deleted_ids orig ed) = [].
Proof.
  intros Hsame. apply nil_no_elem.
  intros id [Ho He]%elem_of_deleted_ids. apply He. clear He.
  induction Hsame as [|[i r] [index row] l ed [Hi Hr] Hsame IH];
    [by apply elem_of_nil in Ho|].
  simpl in Hi. subst index. csimpl in *.
  apply elem_of_cons in Ho as [->|Ho]; [left|right; by apply IH].
Qed.

Lemma same_cells_unedited orig : same_cells orig (unedited <$> orig).
Proof. induction orig as [|[i r] l IH]; by constructor. Qed.

End ClientsFacts.

(** ** The verticals tab *)

Module VerticalsFacts.
Import Verticals.

Section Loops.
Context {S : Type}.
Variable serve : request → S → S * reply.
Implicit Types st : session S.

Lemma grows_dispatch_bare context id rq st n st' n' :
  dispatch_bare serve context id rq st n = (st', n', None) →
  grows st st' n n' [rq].
Proof.
  intros Hd. apply (grows_dispatch serve context id). revert Hd.
  unfold dispatch_bare, dispatch.
  destruct (http serve rq st) as [st1 r].
  destruct r as [code detail|e]; [case_decide|]; by intros [= <- <-].
Qed.

Lemma vertical_update_loop_grows orig ed st n st' n' :
  update_loop serve orig ed st n = (st', n', None) →
  grows st st' n n' (omap (put_of orig) ed).
Proof.
  revert st n.
  induction ed as [|[index name] ed IH]; intros st n Hl; simpl in Hl.
  - injection Hl as <- <-. apply grows_refl.
  - cbn [omap list_omap]. unfold put_of at 1. simpl.
    destruct (partner orig index) as [[id name0]|] eqn:Hp; simpl;
      [|by apply IH].
    case_decide; [|by apply IH].
    destruct (dispatch_bare _ _ _ _ _ _) as [[st1 n1] c] eqn:Hd.
    destruct c; [done|].
    apply grows_dispatch_bare in Hd. apply IH in Hl.
    change (?x :: ?l) with ([x] ++ l). eapply grows_trans; eauto.
Qed.

Lemma vertical_delete_loop_grows ids st n st' n' :
  delete_loop serve ids st n = (st', n', None) →
  grows st st' n n' (DELETE "verticals" <$> ids).
Proof.
  revert st n. induction ids as [|id ids IH]; intros st n Hl; simpl in Hl.
  - injection Hl as <- <-. apply grows_refl.
  - destruct (dispatch_bare _ _ _ _ _ _) as [[st1 n1] c] eqn:Hd.
    destruct c; [done|].
    apply grows_dispatch_bare in Hd. apply IH in Hl.
    rewrite fmap_cons. change (?x :: ?l) with ([x] ++ l).
    eapply grows_trans; eauto.
Qed.

(** What one run of the handler that no exception ends does. *)
Lemma save_vertical_changes_run orig ed st st' :
  save_vertical_changes serve orig ed st = (st', None) →
  ∃ u d st2,
    grows st st2 0 (u + d)
      (omap (put_of orig) ed
         ++ (DELETE "verticals" <$> elements (deleted_ids orig ed))) ∧
    st' = report u d st2.
Proof.
  unfold save_vertical_changes.
  destruct (update_loop _ _ _ _ _) as [[st1 u] c1] eqn:Hu.
  destruct c1; [done|].
  destruct (delete_loop _ _ _ _) as [[st2 d] c2] eqn:Hd.
  destruct c2; [done|]. intros [= <-].
  exists u, d, st2. split; [|done].
  apply vertical_update_loop_grows in Hu. apply vertical_delete_loop_grows in Hd.
  eapply grows_trans; [exact Hu|].
  replace u with (u + 0)%nat at 1 by lia. by apply grows_shift.
Qed.

End Loops.

End VerticalsFacts.


(** ** The endpoints *)

Module ApiFacts.
Import Schemas Db Py Rest.

Local Ltac unfold_endpoints :=
  unfold kind, crud, endpoint, forget, forget_row,
    Api.create_vertical, Api.read_vertical, Api.update_vertical,
    Api.delete_vertical, Api.create_unit, Api.read_unit, Api.update_unit,
    Api.delete_unit, Api.create_client, Api.read_client, Api.update_client,
    Api.delete_client, Api.create_work_type, Api.update_work_type,
    Api.delete_work_type, Api.create_work_type_origin_type,
    Api.update_work_type_origin_type, Api.delete_work_type_origin_type,
    Api.create_forecast, Api.update_forecast, Api.delete_forecast,
    Api.on_create, Api.on_update, Api.on_delete, Api.found,
    model_validate, try_except, bind, raise, ret.

Lemma guarded_inl {R} checks (ok : tables * list R) e :
  guarded checks ok = inl e → e ∈ checks.*2.
Proof.
  unfold guarded. destruct (first_violation checks) as [e'|] eqn:Hf; [|done].
  intros [= <-]. induction checks as [|[b e0] checks IH]; [done|].
  simpl in Hf. csimpl. destruct b.
  - injection Hf as ->. left.
  - right. by apply IH.
Qed.

(** A function of [crud.py] raises what its statement raises, or finds the
    transaction aborted. *)
Lemma crud_raise {R} (q : statement R) conn c' e :
  Crud.write q conn = (c', Raise e) ∨ Crud.read q conn = (c', Raise e) →
  ∃ pe, e = PgError pe ∧
        (pe = InFailedSqlTransaction ∨ ∃ t s, (q t s).2 = inl pe).
Proof.
  unfold Crud.write, Crud.read, bind, cur_execute, execute, conn_commit, ret.
  destruct (status conn); intros [H|H]; revert H;
    try (destruct (q (working conn) (seqs conn)) as [s' [pe|[t' rows]]] eqn:Hq);
    simpl; intros [= <- <-];
    eexists; (split; [done|]); eauto;
    right; exists (working conn), (seqs conn); by rewrite Hq.
Qed.

Local Ltac unfold_crud H :=
  unfold Crud.create_business_vertical, Crud.get_business_vertical,
    Crud.update_business_vertical, Crud.delete_business_vertical,
    Crud.create_business_unit, Crud.get_business_unit,
    Crud.update_business_unit, Crud.delete_business_unit,
    Crud.create_client, Crud.get_client, Crud.update_client,
    Crud.delete_client, Crud.create_work_type, Crud.update_work_type,
    Crud.delete_work_type, Crud.create_work_type_origin_type,
    Crud.update_work_type_origin_type, Crud.delete_work_type_origin_type,
    Crud.create_forecast, Crud.update_forecast_amount, Crud.delete_forecast
    in H.

Local Ltac impossible H :=
  unfold_crud H;
  let pe := fresh "pe" in
  let Hpe := fresh "Hpe" in
  let Hq := fresh "Hq" in
  first [ apply (λ H', crud_raise _ _ _ _ (or_introl H')) in H
        | apply (λ H', crud_raise _ _ _ _ (or_intror H')) in H ];
  destruct H as (pe & Hpe & [->|(? & ? & Hq)]);
  [ discriminate
  | injection Hpe as <-; simpl in Hq;
    first [ discriminate
          | apply guarded_inl in Hq; csimpl in Hq;
            repeat (apply elem_of_cons in Hq as [Hq|Hq];
                    [discriminate|]);
            by apply elem_of_nil in Hq ] ].

(** How an endpoint ends, from how its [crud] function ends. *)
Lemma endpoint_status k conn e :
  kind k conn = Some e →
  ¬ (writes_44 k = true ∧ e = NotFound) →
  ∃ detail,
    (endpoint k conn).2 = Raise (HTTPException (status_of_kind e) detail).
Proof.
  destruct k; unfold_endpoints; simpl;
    match goal with
    | |- context [?f conn] =>
        lazymatch type of (f conn) with
        | (connection * outcome (option _))%type =>
            destruct (f conn) as [c' [[r|]|[[n|n|]|code d|msg]]] eqn:Hc
        end
    end; simpl; intros Hk Hslip; simplify_eq/=; eauto;
    try (destruct Hslip; done); exfalso; impossible Hc.
Qed.

Lemma get_db_conn_outcome {A} (m : M A) conn :
  (Database.get_db_conn m conn).2 = (m conn).2.
Proof. unfold Database.get_db_conn. by destruct (m conn). Qed.

(** A statement that succeeds on a connection fresh from the pool is
    committed; one that fails leaves the tables as they were; either way
    the connection goes back idle. *)
Lemma write_idle {R} (q : statement R) t s :
  Crud.write q (idle t s) =
    match q t s with
    | (s', inl e) => (mkConnection t t s' InError, Raise (PgError e))
    | (s', inr (t', rows)) => (idle t' s', Return (fetchone rows))
    end.
Proof.
  unfold Crud.write, bind, cur_execute, execute, conn_commit, ret. simpl.
  by destruct (q t s) as [s' [e|[t' rows]]].
Qed.

Lemma read_idle {R} (q : statement R) t s :
  Crud.read q (idle t s) =
    match q t s with
    | (s', inl e) => (mkConnection t t s' InError, Raise (PgError e))
    | (s', inr (t', rows)) =>
        (mkConnection t t' s' InTransaction, Return (fetchone rows))
    end.
Proof.
  unfold Crud.read, bind, cur_execute, execute, ret. simpl.
  by destruct (q t s) as [s' [e|[t' rows]]].
Qed.

(** The amount update, run as a request. *)
Lemma update_forecast_run t s id upd :
  Database.get_db_conn (Api.update_forecast id upd) (idle t s) =
    (idle (set_forecasts
             ((λ r, if decide (f_id r = id)
                    then set_amount (fu_amount upd) r else r)
                <$> forecasts t) t) s,
     match filter (λ r, f_id r = id) (forecasts t) with
     | [] => Raise (HTTPException 404 "Forecast not found")
     | r :: _ => Return (set_amount (fu_amount upd) r)
     end).
Proof.
  unfold Database.get_db_conn, Api.update_forecast,
    Crud.update_forecast_amount, bind.
  rewrite write_idle. simpl.
  by destruct (filter _ (forecasts t)).
Qed.

(** The forecast insert, run as a request whose checks all pass. *)
Lemma create_forecast_run t s fc :
  let new := mkForecast (fc_client_id fc) (fc_unit_id fc)
               (fc_work_type_id fc) (fc_dt fc) (fc_amount fc) (fc_name fc)
               (forecasts_seq s) in
  forecasts_seq s ∉ (f_id <$> forecasts t) →
  unique_forecast new ∉ (unique_forecast <$> forecasts t) →
  fc_client_id fc ∈ (c_id <$> clients t) →
  fc_unit_id fc ∈ (bu_id <$> business_unit t) →
  fc_work_type_id fc ∈ (wt_id <$> work_type t) →
  Database.get_db_conn (Api.create_forecast fc) (idle t s) =
    (idle (set_forecasts (forecasts t ++ [new]) t) (bump_forecasts_seq s),
     Return new).
Proof.
  intros new Hid Hkey Hc Hu Hw.
  unfold Database.get_db_conn, Api.create_forecast, Crud.create_forecast,
    try_except, bind.
  rewrite write_idle. unfold insert_forecast, guarded. simpl.
  rewrite !bool_decide_false by (try done; by intros []). done.
Qed.

(** [create_forecast] returns exactly when the five checks pass. *)
Lemma create_forecast_returns t s fc :
  forecasts_seq s ∉ (f_id <$> forecasts t) →
  (∃ new, (Database.get_db_conn (Api.create_forecast fc) (idle t s)).2 =
            Return new) ↔
  ((fc_unit_id fc, fc_client_id fc, fc_work_type_id fc, fc_dt fc)
     ∉ (unique_forecast <$> forecasts t)) ∧
  fc_client_id fc ∈ (c_id <$> clients t) ∧
  fc_unit_id fc ∈ (bu_id <$> business_unit t) ∧
  fc_work_type_id fc ∈ (wt_id <$> work_type t).
Proof.
  intros Hid. split.
  - rewrite get_db_conn_outcome.
    unfold Api.create_forecast, Crud.create_forecast, try_except, bind.
    rewrite write_idle. unfold insert_forecast, guarded. simpl.
    rewrite (bool_decide_false _ Hid).
    repeat case_bool_decide; simpl; intros [new Hnew]; try discriminate.
    done.
  - intros (Hkey & Hc & Hu & Hw). eexists.
    by rewrite create_forecast_run.
Qed.

(** *** A create that succeeds, then a create of the same name *)

Local Ltac run_create :=
  unfold Database.get_db_conn, Api.create_vertical, Api.create_unit,
    Api.create_client, Api.create_work_type,
    Api.create_work_type_origin_type,
    Crud.create_business_vertical, Crud.create_business_unit,
    Crud.create_client, Crud.create_work_type,
    Crud.create_work_type_origin_type, try_except, bind;
  rewrite write_idle;
  unfold insert_business_vertical, insert_business_unit, insert_client,
    insert_work_type, insert_work_type_origin_type, guarded; simpl.

Local Ltac created :=
  run_create; repeat case_bool_decide; simpl; intros [= <- <-]; done.

Local Ltac refused Hname :=
  run_create; rewrite (bool_decide_true _ Hname);
  case_bool_decide; reflexivity.

Lemma create_vertical_inv t s v c1 row :
  Database.get_db_conn (Api.create_vertical v) (idle t s) = (c1, Return row) →
  row = mkBusinessVertical (bvc_name v) (business_vertical_seq s) ∧
  (bv_id row ∉ (bv_id <$> business_vertical t)) ∧
  c1 = idle (set_business_vertical (business_vertical t ++ [row]) t)
         (bump_business_vertical_seq s).
Proof. created. Qed.

Lemma create_vertical_duplicate t s v :
  bvc_name v ∈ (bv_name <$> business_vertical t) →
  Database.get_db_conn (Api.create_vertical v) (idle t s) =
    (idle t (bump_business_vertical_seq s),
     Raise (HTTPException 400 "Business vertical name already exists.")).
Proof. intros Hname. refused Hname. Qed.

Lemma create_unit_inv t s u c1 row :
  Database.get_db_conn (Api.create_unit u) (idle t s) = (c1, Return row) →
  row = mkBusinessUnit (buc_name u) (buc_vertical_id u)
          (business_unit_seq s) ∧
  (bu_id row ∉ (bu_id <$> business_unit t)) ∧
  c1 = idle (set_business_unit (business_unit t ++ [row]) t)
         (bump_business_unit_seq s).
Proof. created. Qed.

Lemma create_unit_duplicate t s u :
  buc_name u ∈ (bu_name <$> business_unit t) →
  Database.get_db_conn (Api.create_unit u) (idle t s) =
    (idle t (bump_business_unit_seq s),
     Raise (HTTPException 400 "Business unit name already exists.")).
Proof. intros Hname. refused Hname. Qed.

Lemma create_client_inv t s c c1 row :
  Database.get_db_conn (Api.create_client c) (idle t s) = (c1, Return row) →
  row = mkClient (cc_name c) (cc_active c) (cc_start_date c)
          (cc_end_date c) (cc_unit_id c) (clients_seq s) ∧
  (c_id row ∉ (c_id <$> clients t)) ∧
  c1 = idle (set_clients (clients t ++ [row]) t) (bump_clients_seq s).
Proof. created. Qed.

Lemma create_client_duplicate t s c :
  cc_name c ∈ (c_name <$> clients t) →
  Database.get_db_conn (Api.create_client c) (idle t s) =
    (idle t (bump_clients_seq s),
     Raise (HTTPException 400 "Client name already exists.")).
Proof. intros Hname. refused Hname. Qed.

Lemma create_work_type_inv t s w c1 row :
  Database.get_db_conn (Api.create_work_type w) (idle t s) =
    (c1, Return row) →
  row = mkWorkType (wtc_name w) (wtc_origin_id w) (work_type_seq s) ∧
  (wt_id row ∉ (wt_id <$> work_type t)) ∧
  c1 = idle (set_work_type (work_type t ++ [row]) t) (bump_work_type_seq s).
Proof. created. Qed.

Lemma create_work_type_duplicate t s w :
  wtc_name w ∈ (wt_name <$> work_type t) →
  Database.get_db_conn (Api.create_work_type w) (idle t s) =
    (idle t (bump_work_type_seq s),
     Raise (HTTPException 400 "Work type name already exists.")).
Proof. intros Hname. refused Hname. Qed.

Lemma create_origin_inv t s o c1 row :
  Database.get_db_conn (Api.create_work_type_origin_type o) (idle t s) =
    (c1, Return row) →
  row = mkWorkTypeOriginType (wtoc_name o) (work_type_origin_type_seq s) ∧
  (wto_id row ∉ (wto_id <$> work_type_origin_type t)) ∧
  c1 = idle (set_work_type_origin_type (work_type_origin_type t ++ [row]) t)
         (bump_work_type_origin_type_seq s).
Proof. created. Qed.

Lemma create_origin_duplicate t s o :
  wtoc_name o ∈ (wto_name <$> work_type_origin_type t) →
  Database.get_db_conn (Api.create_work_type_origin_type o) (idle t s) =
    (idle t (bump_work_type_origin_type_seq s),
     Raise (HTTPException 400 "Work type origin name already exists.")).
Proof. intros Hname. refused Hname. Qed.

(** *** Reading the row that was appended *)

Lemma filter_id_snoc {R} (key : R → Z) (rows : list R) row :
  key row ∉ (key <$> rows) →
  filter (λ r, key r = key row) (rows ++ [row]) = [row].
Proof.
  intros Hid. rewrite filter_app.
  rewrite (nil_no_elem (filter _ rows)).
  - by rewrite filter_cons_True.
  - intros x [Hx Hin]%list_elem_of_filter. apply Hid. rewrite <- Hx.
    by apply list_elem_of_fmap_2.
Qed.

Local Ltac run_read :=
  rewrite get_db_conn_outcome;
  unfold Api.read_vertical, Api.read_unit, Api.read_client,
    Crud.get_business_vertical, Crud.get_business_unit, Crud.get_client,
    bind;
  rewrite read_idle;
  unfold select_business_vertical, select_business_unit, select_client;
  simpl.

Lemma read_vertical_appended t s row :
  bv_id row ∉ (bv_id <$> business_vertical t) →
  (Database.get_db_conn (Api.read_vertical (bv_id row))
     (idle (set_business_vertical (business_vertical t ++ [row]) t) s)).2 =
    Return row.
Proof. intros Hid. run_read. by rewrite (filter_id_snoc bv_id). Qed.

Lemma read_unit_appended t s row :
  bu_id row ∉ (bu_id <$> business_unit t) →
  (Database.get_db_conn (Api.read_unit (bu_id row))
     (idle (set_business_unit (business_unit t ++ [row]) t) s)).2 =
    Return row.
Proof. intros Hid. run_read. by rewrite (filter_id_snoc bu_id). Qed.

Lemma read_client_appended t s row :
  c_id row ∉ (c_id <$> clients t) →
  (Database.get_db_conn (Api.read_client (c_id row))
     (idle (set_clients (clients t ++ [row]) t) s)).2 =
    Return row.
Proof. intros Hid. run_read. by rewrite (filter_id_snoc c_id). Qed.

End ApiFacts.

(** * The claims *)

Section Report.
Context {S : Type}.

Lemma report_accounting (s : S) st2 u d reqs :
  grows (mkSession s [] []) st2 0 (u + d) reqs →
  sent (report u d st2) = reqs ∧
  last (shown (report u d st2)) =
    Some (if decide (0 < u ∨ 0 < d)%nat
          then Success_saved u d else Info_no_changes) ∧
  (u + d + errors (shown (report u d st2)) = length reqs)%nat.
Proof.
  intros (Hs & m & Hm & Hc & _). simpl in Hs, Hm.
  unfold report. case_decide; simpl; rewrite Hs, Hm, last_snoc, errors_app;
    (split_and!; [done|done|unfold errors at 2; simpl; lia]).
Qed.

End Report.

(** ** The reconciliation of the forecast page *)


(** The example's edited frame keeps the read-only columns. *)
Lemma example_keeps_disabled_columns :
  App.keeps_disabled_columns App.original3 App.edited2.
Proof.
  intros o e Ho He. unfold App.original3, App.edited2 in *.
  repeat (apply elem_of_cons in Ho as [->|Ho]);
    try (by apply elem_of_nil in Ho);
    repeat (apply elem_of_cons in He as [->|He]);
    try (by apply elem_of_nil in He); simpl; intros [=]; reflexivity.
Defined.


(** ** Which rows correspond *)

(** C2, as stated, fails on the forecast page: a row that keeps its id and its
    amount but shows another client name is not matched with the original row;
    the original row is classified [left_only] and deleted, the edited row is
    classified [right_only]. *)
Lemma C2_counterexample :
  App.merge_outer [App.row 1 100] [App.renamed (App.row 1 100) "Acme Ltd"] =
    [App.left_only (App.row 1 100);
     App.right_only (App.renamed (App.row 1 100) "Acme Ltd")] ∧
  sent (App.save_changes App.always_ok [App.row 1 100]
          [App.renamed (App.row 1 100) "Acme Ltd"] App.start).1 =
    [DELETE "forecasts" 1].
Proof. split; reflexivity. Qed.

(** C2, amended: on the forecast page two rows correspond exactly when they
    agree on [forecast_id] and on the five display columns the editor
    disables; a row of the original without such a partner is [left_only], a
    row of the edited frame without one is [right_only]; where the edited
    frame keeps the disabled columns, a row corresponds to the original row of
    the same id; of two corresponding rows only the amounts are compared.  On
    the client page an edited row is compared with the original row of the
    same [client_id], on every other column, and an original row is deleted
    exactly when its [client_id] is absent from the edited frame. *)
Theorem C2_rows_correspond_on_the_merge_columns :
  (∀ orig ed o e,
     App.both o e ∈ App.merge_outer orig ed ↔
     o ∈ orig ∧ e ∈ ed ∧ App.key_new e = App.key_orig o) ∧
  (∀ orig ed o,
     App.left_only o ∈ App.merge_outer orig ed ↔
     o ∈ orig ∧ ∀ e, e ∈ ed → App.key_new e ≠ App.key_orig o) ∧
  (∀ orig ed e,
     App.right_only e ∈ App.merge_outer orig ed ↔
     e ∈ ed ∧ App.key_new e ∉ (App.key_orig <$> orig)) ∧
  (∀ orig ed o e,
     App.keeps_disabled_columns orig ed → o ∈ orig → e ∈ ed →
     (App.both o e ∈ App.merge_outer orig ed ↔
      App.e_forecast_id e = Some (App.forecast_id o))) ∧
  (∀ o e,
     App.is_update (App.both o e) ↔
     App.e_forecast_amount e ≠ Some (App.forecast_amount o)) ∧
  (∀ (S : Type) (serve : request → S → S * reply) orig ed (s : S) rq,
     rq ∈ sent (Clients.save_client_changes serve orig ed (mkSession s [] []))
     ↔ (∃ id row r0, (Some id, row) ∈ ed ∧ Clients.loc orig id = Some r0 ∧
                     Clients.normalised row ≠ Clients.normalised r0 ∧
                     rq = PUT "clients" id (Clients.payload row)) ∨
       (∃ id, id ∈ (fst <$> orig) ∧ (Some id ∉ (fst <$> ed)) ∧
              rq = DELETE "clients" id)).
Proof.
  split_and!.
  - apply AppFacts.elem_of_merge_both.
  - apply AppFacts.elem_of_merge_left_only.
  - apply AppFacts.elem_of_merge_right_only.
  - intros orig ed o e Hkeep Ho He. rewrite AppFacts.elem_of_merge_both.
    split.
    + intros (_ & _ & Hk). by injection Hk as -> _ _ _ _ _.
    + intros Hid. split_and!; try done. by apply Hkeep.
  - intros o e. simpl. unfold App.amount_differs.
    destruct (App.e_forecast_amount e) as [a|]; [|done].
    split; intros H; congruence.
  - intros S serve orig ed s rq.
    destruct (ClientsFacts.save_client_changes_run serve orig ed
                (mkSession s [] [])) as (u & d & st2 & Hg & _ & ->).
    apply report_accounting in Hg as (-> & _).
    rewrite elem_of_app, ClientsFacts.client_elem_of_puts, list_elem_of_fmap.
    split; (intros [Hput|Hdel]; [by left|right]).
    + destruct Hdel as (id & -> & [? ?]%ClientsFacts.elem_of_deleted_ids).
      by exists id.
    + destruct Hdel as (id & Ho & He & ->). exists id. split; [done|].
      by apply ClientsFacts.elem_of_deleted_ids.
Qed.

Lemma C2_witness :
  App.keeps_disabled_columns App.original3 App.edited2 ∧
  (App.both (App.row 1 100) (App.unedited (App.row 1 150))
     ∈ App.merge_outer App.original3 App.edited2 ↔
   App.e_forecast_id (App.unedited (App.row 1 150)) =
     Some (App.forecast_id (App.row 1 100))).
Proof.
  split; [exact example_keeps_disabled_columns|].
  apply (proj1 (proj2 (proj2 (proj2 C2_rows_correspond_on_the_merge_columns)))
           App.original3 App.edited2 _ _ example_keeps_disabled_columns).
  - left.
  - left.
Defined.

(** ** Rows added in the editor *)

(** C3: an id that is absent from the original snapshot (such as the id of a
    row appended in the editor) is the target of no request: every request the
    forecast page and the client page send on save is a PUT or a DELETE on
    another id, never a POST; the client page shows a warning for every
    edited row without a partner in the original. *)
Theorem C3_new_rows_emit_nothing :
  (∀ (S : Type) (serve : request → S → S * reply) orig ed (s : S) i rq,
     i ∉ (App.forecast_id <$> orig) →
     rq ∈ sent (App.save_changes serve orig ed (mkSession s [] [])).1 →
     ∃ id, id ≠ i ∧
           ((∃ body, rq = PUT "forecasts" id body) ∨
            rq = DELETE "forecasts" id)) ∧
  (∀ (S : Type) (serve : request → S → S * reply) orig ed (s : S) i rq,
     i ∉ (fst <$> orig) →
     rq ∈ sent (Clients.save_client_changes serve orig ed (mkSession s [] [])) →
     ∃ id, id ≠ i ∧
           ((∃ body, rq = PUT "clients" id body) ∨ rq = DELETE "clients" id)) ∧
  (∀ (S : Type) (serve : request → S → S * reply) orig ed (s : S) i row,
     i ∉ (fst <$> orig) → (Some i, row) ∈ ed →
     Warning_added_in_editor (Clients.client_name row)
       ∈ shown (Clients.save_client_changes serve orig ed (mkSession s [] []))).
Proof.
  split_and!.
  - intros S serve orig ed s i rq Hi.
    destruct (App.save_changes serve orig ed (mkSession s [] []))
      as [st' x] eqn:Hs. simpl.
    apply AppFacts.save_changes_run in Hs
      as (puts & dels & u & d & st2 & Hg & Hp & Hx & Hx' & _).
    assert (sent st' = puts ++ dels ∧
            dels ⊆ omap App.del_of
                     (filter App.is_left_only (App.merge_outer orig ed)))
      as [-> Hd].
    { destruct x as [ex|].
      - destruct Hx' as [-> ->]; [done|]. destruct Hg as [-> _].
        split; [done|]. intros ? ?%elem_of_nil. done.
      - destruct (Hx eq_refl) as (_ & -> & ->).
        apply report_accounting in Hg as (-> & _). done. }
    rewrite elem_of_app. intros [Hin|Hin].
    + destruct Hp as [k Hp].
      assert (rq ∈ omap App.put_of
                     (filter App.is_update (App.merge_outer orig ed))) as Hin'
        by (rewrite Hp, elem_of_app; by left).
      apply AppFacts.forecast_elem_of_puts in Hin'
        as (o & e & a & Ho & _ & _ & _ & _ & ->).
      exists (App.forecast_id o). split; [|left; eauto].
      intros <-. apply Hi. by apply list_elem_of_fmap_2.
    + apply Hd, AppFacts.forecast_elem_of_dels in Hin as (o & Ho & _ & ->).
      exists (App.forecast_id o). split; [|by right].
      intros <-. apply Hi. by apply list_elem_of_fmap_2.
  - intros S serve orig ed s i rq Hi.
    destruct (ClientsFacts.save_client_changes_run serve orig ed
                (mkSession s [] [])) as (u & d & st2 & Hg & _ & ->).
    apply report_accounting in Hg as (-> & _).
    rewrite elem_of_app, ClientsFacts.client_elem_of_puts, list_elem_of_fmap.
    intros [(id & row & r0 & _ & Hloc & _ & ->)|(id & -> & Hdel)].
    + exists id. split; [|left; eauto]. intros <-. apply Hi.
      apply list_find_fst_elem in Hloc.
      by apply (list_elem_of_fmap_2 fst orig (id, r0)).
    + apply ClientsFacts.elem_of_deleted_ids in Hdel as [Ho _].
      exists id. split; [|by right]. by intros <-.
  - intros S serve orig ed s i row Hi Hin.
    destruct (ClientsFacts.save_client_changes_run serve orig ed
                (mkSession s [] [])) as (u & d & st2 & _ & Hw & ->).
    assert (Warning_added_in_editor (Clients.client_name row) ∈ shown st2)
      as Hshown.
    { apply (Hw (Some i) row Hin).
      destruct (Clients.partner orig (Some i)) as [[id r0]|] eqn:Hp; [|done].
      apply ClientsFacts.partner_Some in Hp as [[= <-] Hloc].
      destruct Hi. apply list_find_fst_elem in Hloc.
      by apply (list_elem_of_fmap_2 fst orig (i, r0)). }
    unfold report. case_decide; simpl; rewrite elem_of_app; by left.
Qed.

Lemma C3_witness :
  (7 ∉ (App.forecast_id <$> App.original3)) ∧
  (PUT "forecasts" 1 [("forecast_amount"%string, JInt 150)]
     ∈ sent (App.save_changes App.always_ok App.original3
               (App.edited2 ++ [App.unedited (App.row 7 10)])
               (mkSession tt [] [])).1) ∧
  ∃ id, id ≠ 7 ∧
        ((∃ body, PUT "forecasts" 1 [("forecast_amount"%string, JInt 150)] =
                  PUT "forecasts" id body) ∨
         PUT "forecasts" 1 [("forecast_amount"%string, JInt 150)] =
           DELETE "forecasts" id).
Proof.
  assert (7 ∉ (App.forecast_id <$> App.original3)) as Hi.
  { simpl. rewrite !elem_of_cons, elem_of_nil. intros [?|[?|[?|[]]]]; lia. }
  assert (PUT "forecasts" 1 [("forecast_amount"%string, JInt 150)]
            ∈ sent (App.save_changes App.always_ok App.original3
                      (App.edited2 ++ [App.unedited (App.row 7 10)])
                      (mkSession tt [] [])).1) as Hin.
  { vm_compute. left. }
  split; [exact Hi|]. split; [exact Hin|].
  exact (proj1 C3_new_rows_emit_nothing unit App.always_ok App.original3
           (App.edited2 ++ [App.unedited (App.row 7 10)]) tt 7 _ Hi Hin).
Defined.

(** ** The final report *)




(** ** Saving an untouched table *)

(** C9: saving a table that was not edited sends no request and shows
    "No changes detected." alone, on the forecast page and on the client
    page, whatever the rows hold: an empty [client_active] cell or an empty
    end date compare equal to themselves, and an end date spelled [None] on
    one side and [NaT] on the other is no difference. *)
Theorem C9_unedited_table_saves_nothing :
  (∀ (S : Type) (serve : request → S → S * reply) orig (s : S),
     NoDup (App.forecast_id <$> orig) →
     App.save_changes serve orig (App.unedited <$> orig) (mkSession s [] []) =
       (mkSession s [] [Info_no_changes], None)) ∧
  (∀ (S : Type) (serve : request → S → S * reply) orig (s : S),
     NoDup (fst <$> orig) →
     Clients.save_client_changes serve orig (Clients.unedited <$> orig)
       (mkSession s [] []) = mkSession s [] [Info_no_changes]) ∧
  (∀ (S : Type) (serve : request → S → S * reply) orig ed (s : S),
     NoDup (fst <$> orig) → Clients.same_cells orig ed →
     Clients.save_client_changes serve orig ed (mkSession s [] []) =
       mkSession s [] [Info_no_changes]).
Proof.
  assert (∀ (S : Type) (serve : request → S → S * reply) orig ed (s : S),
     NoDup (fst <$> orig) → Clients.same_cells orig ed →
     Clients.save_client_changes serve orig ed (mkSession s [] []) =
       mkSession s [] [Info_no_changes]) as Hclients.
  { intros S serve orig ed s Hnd Hsame. unfold Clients.save_client_changes.
    rewrite (ClientsFacts.update_loop_same_cells serve orig orig ed)
      by done.
    by rewrite ClientsFacts.deleted_ids_same_cells. }
  split_and!.
  - intros S serve orig s Hnd. unfold App.save_changes.
    destruct (AppFacts.merge_unedited_quiet orig Hnd) as [-> ->]. done.
  - intros S serve orig s Hnd. apply Hclients; [done|].
    apply ClientsFacts.same_cells_unedited.
  - exact Hclients.
Qed.

Lemma C9_witness :
  NoDup (App.forecast_id <$> App.original3) ∧
  App.save_changes App.always_404 App.original3
    (App.unedited <$> App.original3) (mkSession tt [] []) =
    (mkSession tt [] [Info_no_changes], None).
Proof.
  assert (NoDup (App.forecast_id <$> App.original3)) as Hnd.
  { simpl. repeat (apply NoDup_cons; split;
      [rewrite ?elem_of_cons, elem_of_nil; intros H; decompose [or] H; lia|]).
    apply NoDup_nil_2. }
  split; [exact Hnd|].
  exact (proj1 C9_unedited_table_saves_nothing unit App.always_404
           App.original3 tt Hnd).
Defined.

(** ** The status of each kind of error *)




(** The two endpoints outside the statement above: on an id that does not
    resolve, [read_unit] and [delete_client] raise with the status written in
    their source, 44. *)
Lemma read_unit_and_delete_client_raise_44 :
  (Database.get_db_conn (Api.read_unit 99)
     (Db.idle Db.sample Db.sample_sequences)).2 =
    Py.Raise (Py.HTTPException 44 "Business unit not found") ∧
  (Database.get_db_conn (Api.delete_client 99)
     (Db.idle Db.sample Db.sample_sequences)).2 =
    Py.Raise (Py.HTTPException 44 "Client not found").
Proof. split; reflexivity. Qed.

(** ** The amount update *)


(** ** The sign of an amount *)




(** ** Two creates of the same name *)



(** ** Forecasts and the business unit of their client *)


Lemma sample_forecast_ids :
  Db.forecasts_seq Db.sample_sequences
    ∉ (Schemas.f_id <$> Db.forecasts Db.sample).
Proof.
  simpl. rewrite !elem_of_cons, elem_of_nil.
  intros H; decompose [or] H; done.
Defined.


(** * Further properties *)

(** ** Every call, run on a connection from the pool *)

Module ApiRuns.
Import Schemas Db Py Rest.

Lemma guarded_ok {R} checks (ok ok' : tables * list R) :
  guarded checks ok = inr ok' → ok' = ok.
Proof.
  unfold guarded. destruct (first_violation checks); [done|]. by intros [= <-].
Qed.

Lemma same_tables t :
  set_business_vertical (business_vertical t) t = t ∧
  set_work_type_origin_type (work_type_origin_type t) t = t ∧
  set_business_unit (business_unit t) t = t ∧
  set_work_type (work_type t) t = t ∧
  set_clients (clients t) t = t ∧
  set_forecasts (forecasts t) t = t.
Proof. by destruct t. Qed.

Section Rows.
Context {R : Type} (key : R → Z).

Lemma fmap_unless_hit id (f : R → R) rows :
  filter (λ r, key r = id) rows = [] →
  (λ r, if decide (key r = id) then f r else r) <$> rows = rows.
Proof.
  induction rows as [|r rows IH]; [done|]. rewrite filter_cons. csimpl.
  case_decide; [done|]. intros Hhit. by rewrite IH.
Qed.

Lemma filter_unless_hit id rows :
  filter (λ r, key r = id) rows = [] →
  filter (λ r, key r ≠ id) rows = rows.
Proof.
  induction rows as [|r rows IH]; [done|]. rewrite !filter_cons.
  case_decide; [done|]. intros Hhit. rewrite decide_True by done.
  by rewrite IH.
Qed.

End Rows.

(** A statement that returns no row has changed no table. *)
Definition quiet {R} (q : statement R) : Prop :=
  ∀ t s s' t', q t s = (s', inr (t', [])) → t' = t.

Local Ltac quiet_insert :=
  intros t s s' t' [= _ Hg]; apply guarded_ok in Hg; discriminate.

Local Ltac quiet_change key :=
  let Hhit := fresh "Hhit" in
  let Ht := fresh "Ht" in
  intros t s s' t' [= _ Hg]; try apply guarded_ok in Hg;
  injection Hg as Ht Hhit; subst t';
  first [ apply fmap_nil_inv in Hhit
        | symmetry in Hhit; apply fmap_nil_inv in Hhit
        | idtac ];
  rewrite ?(fmap_unless_hit key), ?(filter_unless_hit key) by done;
  apply same_tables.

Local Ltac quiet_forecast :=
  let Hhit := fresh "Hhit" in
  intros t s s' t' [= _ <- Hhit]; try apply fmap_nil_inv in Hhit;
  rewrite ?(fmap_unless_hit f_id), ?(filter_unless_hit f_id) by done;
  apply same_tables.

Lemma quiet_insert_business_vertical n : quiet (insert_business_vertical n).
Proof. quiet_insert. Qed.
Lemma quiet_insert_work_type_origin_type n :
  quiet (insert_work_type_origin_type n).
Proof. quiet_insert. Qed.
Lemma quiet_insert_business_unit n v : quiet (insert_business_unit n v).
Proof. quiet_insert. Qed.
Lemma quiet_insert_work_type n o : quiet (insert_work_type n o).
Proof. quiet_insert. Qed.
Lemma quiet_insert_client c : quiet (insert_client c).
Proof. quiet_insert. Qed.
Lemma quiet_insert_forecast f : quiet (insert_forecast f).
Proof. quiet_insert. Qed.

Lemma quiet_select_business_vertical id : quiet (select_business_vertical id).
Proof. by intros t s s' t' [= _ <- _]. Qed.
Lemma quiet_select_business_unit id : quiet (select_business_unit id).
Proof. by intros t s s' t' [= _ <- _]. Qed.
Lemma quiet_select_client id : quiet (select_client id).
Proof. by intros t s s' t' [= _ <- _]. Qed.

Lemma quiet_update_business_vertical n id :
  quiet (Db.update_business_vertical n id).
Proof. quiet_change bv_id. Qed.
Lemma quiet_update_work_type_origin_type n id :
  quiet (Db.update_work_type_origin_type n id).
Proof. quiet_change wto_id. Qed.
Lemma quiet_update_business_unit n v id :
  quiet (Db.update_business_unit n v id).
Proof. quiet_change bu_id. Qed.
Lemma quiet_update_work_type n o id : quiet (Db.update_work_type n o id).
Proof. quiet_change wt_id. Qed.
Lemma quiet_update_client c id : quiet (Db.update_client c id).
Proof. quiet_change c_id. Qed.
Lemma quiet_update_forecast_amount a id :
  quiet (Db.update_forecast_amount a id).
Proof. quiet_forecast. Qed.

Lemma quiet_delete_business_vertical id : quiet (Db.delete_business_vertical id).
Proof. quiet_change bv_id. Qed.
Lemma quiet_delete_work_type_origin_type id :
  quiet (Db.delete_work_type_origin_type id).
Proof. quiet_change wto_id. Qed.
Lemma quiet_delete_business_unit id : quiet (Db.delete_business_unit id).
Proof. quiet_change bu_id. Qed.
Lemma quiet_delete_work_type id : quiet (Db.delete_work_type id).
Proof. quiet_change wt_id. Qed.
Lemma quiet_delete_client id : quiet (Db.delete_client id).
Proof. quiet_change c_id. Qed.
Lemma quiet_delete_forecast id : quiet (Db.delete_forecast id).
Proof. quiet_forecast. Qed.

Create HintDb quiet_db.
#[local] Hint Resolve quiet_insert_business_vertical
  quiet_insert_work_type_origin_type quiet_insert_business_unit
  quiet_insert_work_type quiet_insert_client quiet_insert_forecast
  quiet_select_business_vertical quiet_select_business_unit
  quiet_select_client quiet_update_business_vertical
  quiet_update_work_type_origin_type quiet_update_business_unit
  quiet_update_work_type quiet_update_client quiet_update_forecast_amount
  quiet_delete_business_vertical quiet_delete_work_type_origin_type
  quiet_delete_business_unit quiet_delete_work_type quiet_delete_client
  quiet_delete_forecast : quiet_db.

Ltac unfold_call :=
  unfold Database.get_db_conn, endpoint, forget,
    Api.create_vertical, Api.read_vertical, Api.update_vertical,
    Api.delete_vertical, Api.create_unit, Api.read_unit, Api.update_unit,
    Api.delete_unit, Api.create_client, Api.read_client, Api.update_client,
    Api.delete_client, Api.create_work_type, Api.update_work_type,
    Api.delete_work_type, Api.create_work_type_origin_type,
    Api.update_work_type_origin_type, Api.delete_work_type_origin_type,
    Api.create_forecast, Api.update_forecast, Api.delete_forecast,
    Crud.create_business_vertical, Crud.get_business_vertical,
    Crud.update_business_vertical, Crud.delete_business_vertical,
    Crud.create_business_unit, Crud.get_business_unit,
    Crud.update_business_unit, Crud.delete_business_unit,
    Crud.create_client, Crud.get_client, Crud.update_client,
    Crud.delete_client, Crud.create_work_type, Crud.update_work_type,
    Crud.delete_work_type, Crud.create_work_type_origin_type,
    Crud.update_work_type_origin_type, Crud.delete_work_type_origin_type,
    Crud.create_forecast, Crud.update_forecast_amount, Crud.delete_forecast,
    try_except, bind;
  rewrite ?ApiFacts.write_idle, ?ApiFacts.read_idle.

(** The shape of every run: the connection comes back idle over some tables,
    and these are the tables of the start when the endpoint raised. *)
Lemma call_run k t s :
  ∃ t' s' r,
    Database.get_db_conn (endpoint k) (idle t s) = (idle t' s', r) ∧
    (∀ e, r = Raise e → t' = t).
Proof.
  destruct k; unfold_call;
    match goal with
    | |- context [?q t s] =>
        lazymatch type of (q t s) with
        | (sequences * _)%type =>
            assert (quiet q) as Hquiet by auto with quiet_db;
            destruct (q t s) as [s' [e|[t' [|r rows]]]] eqn:Hq
        end
    end; simpl; try destruct e; simpl;
    eexists _, _, _; (split; [reflexivity|]); intros e' He'; try done;
    by eapply Hquiet.
Qed.

End ApiRuns.

(** ** The constraints are kept *)

Module IntegrityFacts.
Import Schemas Db Py Rest Integrity.

Lemma guarded_passed {R} checks (ok ok' : tables * list R) :
  guarded checks ok = inr ok' →
  ok' = ok ∧ Forall (λ c, c.1 = false) checks.
Proof.
  unfold guarded. destruct (first_violation checks) as [e'|] eqn:Hf; [done|].
  intros [= <-]. split; [done|].
  induction checks as [|[b e0] checks IH]; [done|].
  simpl in Hf. destruct b; [done|]. constructor; [done|by apply IH].
Qed.

Section Rows.
Context {R : Type} (key : R → Z).
Implicit Types (l : list R) (id : Z) (set : R → R).

Lemma NoDup_snoc {B} (f : R → B) l x :
  NoDup (f <$> l) → f x ∉ (f <$> l) → NoDup (f <$> (l ++ [x])).
Proof.
  intros Hnd Hx. rewrite fmap_app. apply NoDup_app. split_and!; [done| |].
  - intros y Hy ->%list_elem_of_singleton. done.
  - apply NoDup_singleton.
Qed.

Lemma fmap_set_same {B} (f : R → B) id set l :
  (∀ r, f (set r) = f r) →
  f <$> ((λ r, if decide (key r = id) then set r else r) <$> l) = f <$> l.
Proof.
  intros Hf. rewrite <- list_fmap_compose. apply list_fmap_ext.
  intros i r _. simpl. by case_decide.
Qed.

Lemma NoDup_set_name {B} (name : R → B) id set (n : B) l :
  (∀ r, key (set r) = key r) → (∀ r, name (set r) = n) →
  NoDup (key <$> l) → NoDup (name <$> l) →
  ¬ (filter (λ r, key r = id) l ≠ [] ∧
     n ∈ (name <$> filter (λ r, key r ≠ id) l)) →
  NoDup (name <$> ((λ r, if decide (key r = id) then set r else r) <$> l)).
Proof.
  intros Hkey Hname Hk Hn Hfree.
  apply NoDup_fmap_2_strong.
  - intros x y (x0 & -> & Hx0)%list_elem_of_fmap
      (y0 & -> & Hy0)%list_elem_of_fmap.
    destruct (decide (key x0 = id)) as [Hx|Hx],
      (decide (key y0 = id)) as [Hy|Hy].
    + intros _. f_equal. apply (NoDup_fmap_eq key l); congruence.
    + rewrite Hname. intros Heq. destruct Hfree. split.
      * intros Hnil.
        assert (x0 ∈ filter (λ r, key r = id) l) as Hin
          by (by apply list_elem_of_filter).
        rewrite Hnil in Hin. by apply elem_of_nil in Hin.
      * rewrite Heq. apply list_elem_of_fmap_2. by apply list_elem_of_filter.
    + rewrite Hname. intros Heq. destruct Hfree. split.
      * intros Hnil.
        assert (y0 ∈ filter (λ r, key r = id) l) as Hin
          by (by apply list_elem_of_filter).
        rewrite Hnil in Hin. by apply elem_of_nil in Hin.
      * rewrite <- Heq. apply list_elem_of_fmap_2.
        by apply list_elem_of_filter.
    + intros Heq. by apply (NoDup_fmap_eq name l).
  - apply (NoDup_fmap_1 key). by rewrite fmap_set_same.
Qed.

Lemma NoDup_filter_fmap {B} (f : R → B) (P : R → Prop)
    `{!∀ r, Decision (P r)} l :
  NoDup (f <$> l) → NoDup (f <$> filter P l).
Proof.
  intros Hnd. eapply sublist_NoDup; [exact Hnd|].
  apply fmap_sublist, sublist_filter.
Qed.

Lemma Forall_set (P : R → Prop) id set l :
  (∀ r, r ∈ l → key r = id → P (set r)) →
  Forall P l →
  Forall P ((λ r, if decide (key r = id) then set r else r) <$> l).
Proof.
  intros Hset Hl. apply Forall_fmap, Forall_forall. intros r Hr. simpl.
  case_decide; [by apply Hset|]. by eapply Forall_forall in Hl.
Qed.

(** References into a table survive a delete that found no reference. *)
Lemma references_after_delete {C} (fk : C → Z) (rows : list C) id l :
  Forall (λ r, fk r ∈ (key <$> l)) rows →
  ¬ (filter (λ r, key r = id) l ≠ [] ∧ id ∈ (fk <$> rows)) →
  Forall (λ r, fk r ∈ (key <$> filter (λ r, key r ≠ id) l)) rows.
Proof.
  intros Hfk Hfree. apply Forall_forall. intros c Hc.
  eapply Forall_forall in Hfk; [|exact Hc].
  apply list_elem_of_fmap in Hfk as (r & Hr & Hin).
  apply list_elem_of_fmap. exists r. split; [done|].
  apply list_elem_of_filter. split; [|done].
  intros Hid. apply Hfree. split.
  - intros Hnil.
    assert (r ∈ filter (λ r, key r = id) l) as Hhit
      by (by apply list_elem_of_filter).
    rewrite Hnil in Hhit. by apply elem_of_nil in Hhit.
  - rewrite <- Hid, <- Hr. by apply list_elem_of_fmap_2.
Qed.

End Rows.

Lemma references_after_insert {C R} (fk : C → Z) (key : R → Z)
    (rows : list C) (l : list R) x :
  Forall (λ r, fk r ∈ (key <$> l)) rows →
  Forall (λ r, fk r ∈ (key <$> (l ++ [x]))) rows.
Proof.
  intros Hfk. eapply Forall_impl; [exact Hfk|].
  intros c Hc. rewrite fmap_app, elem_of_app. by left.
Qed.

Lemma serial_after_insert {R} (key : R → Z) (l : list R) x n :
  Forall (λ r, key r < n) l → key x = n →
  Forall (λ r, key r < n + 1) (l ++ [x]).
Proof.
  intros Hl Hx. apply Forall_app. split.
  - eapply Forall_impl; [exact Hl|]. simpl. intros; lia.
  - constructor; [lia|constructor].
Qed.

Lemma serial_after_bump {R} (key : R → Z) (l : list R) n :
  Forall (λ r, key r < n) l → Forall (λ r, key r < n + 1) l.
Proof. intros Hl. eapply Forall_impl; [exact Hl|]. simpl. intros; lia. Qed.

(** A statement keeps the constraints, whether it fails or not. *)
Definition preserves {R} (q : statement R) : Prop :=
  ∀ t s, consistent t s →
    match q t s with
    | (s', inl _) => consistent t s'
    | (s', inr (t', _)) => consistent t' s'
    end.

Lemma Forall_snoc {R} (P : R → Prop) (l : list R) x :
  Forall P l → P x → Forall P (l ++ [x]).
Proof. intros Hl Hx. apply Forall_app. split; [done|]. by constructor. Qed.

Lemma Forall_kept {R} (P Q : R → Prop) `{!∀ r, Decision (Q r)} (l : list R) :
  Forall P l → Forall P (filter Q l).
Proof.
  intros Hl. apply Forall_forall. intros r [_ Hr]%list_elem_of_filter.
  by eapply Forall_forall in Hl.
Qed.

(** A check of the form "a row is hit and its reference is missing" that
    passed, read on a row that is hit. *)
Lemma checked_reference {R} (key : R → Z) (l : list R) id (v : Z)
    (ids : list Z) r :
  ¬ (filter (λ r, key r = id) l ≠ [] ∧ v ∉ ids) →
  r ∈ l → key r = id → v ∈ ids.
Proof.
  intros Hc Hr Hid. apply dec_stable. intros Hv. apply Hc. split; [|done].
  intros Hnil.
  assert (r ∈ filter (λ r, key r = id) l) as Hhit
    by (by apply list_elem_of_filter).
  rewrite Hnil in Hhit. by apply elem_of_nil in Hhit.
Qed.

Local Ltac passed H :=
  let Hok := fresh "Hok" in
  apply guarded_passed in H as [Hok H]; injection Hok as -> ->;
  repeat match type of H with
         | Forall _ (_ :: _) =>
             let Hc := fresh "Hc" in
             apply Forall_cons in H as [Hc H];
             simpl in Hc; apply bool_decide_eq_false in Hc;
             try apply dec_stable in Hc
         end;
  clear H.

Local Ltac kept :=
  simpl;
  rewrite ?(fmap_set_same bv_id), ?(fmap_set_same wto_id),
    ?(fmap_set_same bu_id), ?(fmap_set_same wt_id), ?(fmap_set_same c_id),
    ?(fmap_set_same f_id) by done;
  eauto using NoDup_snoc, serial_after_insert, serial_after_bump,
    references_after_insert, Forall_snoc, Forall_kept, NoDup_filter_fmap,
    NoDup_set_name, references_after_delete.

Local Ltac insert_kept :=
  let Hg := fresh "Hg" in
  intros t s [];
  unfold insert_business_vertical, insert_work_type_origin_type,
    insert_business_unit, insert_work_type, insert_client, insert_forecast;
  destruct (guarded _ _) as [e|[t' rows]] eqn:Hg;
  [ constructor; kept | passed Hg; constructor; kept ].

Lemma preserves_insert_business_vertical n :
  preserves (insert_business_vertical n).
Proof. insert_kept. Qed.

Lemma preserves_insert_work_type_origin_type n :
  preserves (insert_work_type_origin_type n).
Proof. insert_kept. Qed.

Lemma preserves_insert_business_unit n v :
  preserves (insert_business_unit n v).
Proof. insert_kept. Qed.

Lemma preserves_insert_work_type n o : preserves (insert_work_type n o).
Proof. insert_kept. Qed.

Lemma preserves_insert_client c : preserves (insert_client c).
Proof. insert_kept. Qed.

Lemma preserves_insert_forecast f : preserves (insert_forecast f).
Proof. insert_kept. Qed.

Local Ltac change_kept :=
  let Hg := fresh "Hg" in
  intros t s [];
  unfold Db.update_business_vertical, Db.update_work_type_origin_type,
    Db.update_business_unit, Db.update_work_type, Db.update_client,
    Db.delete_business_vertical, Db.delete_work_type_origin_type,
    Db.delete_business_unit, Db.delete_work_type, Db.delete_client;
  destruct (guarded _ _) as [e|[t' rows]] eqn:Hg;
  [ by constructor | passed Hg; constructor; kept ].

Local Ltac set_kept key name :=
  first
    [ eapply (NoDup_set_name key name);
      [done|intros; simpl; reflexivity|done|done|done]
    | apply (Forall_set key); [|done];
      intros r Hr Hid; simpl;
      first
        [ by eapply checked_reference
        | match goal with
          | H : Forall _ ?l |- _ =>
              by eapply (proj1 (Forall_forall _ l) H) in Hr
          end ] ].

Lemma preserves_update_business_vertical n id :
  preserves (Db.update_business_vertical n id).
Proof. change_kept; set_kept bv_id bv_name. Qed.

Lemma preserves_update_work_type_origin_type n id :
  preserves (Db.update_work_type_origin_type n id).
Proof. change_kept; set_kept wto_id wto_name. Qed.

Lemma preserves_update_business_unit n v id :
  preserves (Db.update_business_unit n v id).
Proof. change_kept; set_kept bu_id bu_name. Qed.

Lemma preserves_update_work_type n o id :
  preserves (Db.update_work_type n o id).
Proof. change_kept; set_kept wt_id wt_name. Qed.

Lemma preserves_update_client c id : preserves (Db.update_client c id).
Proof. change_kept; set_kept c_id c_name. Qed.

Lemma preserves_delete_business_vertical id :
  preserves (Db.delete_business_vertical id).
Proof. change_kept. Qed.

Lemma preserves_delete_work_type_origin_type id :
  preserves (Db.delete_work_type_origin_type id).
Proof. change_kept. Qed.

Lemma preserves_delete_business_unit id :
  preserves (Db.delete_business_unit id).
Proof. change_kept. Qed.

Lemma preserves_delete_work_type id : preserves (Db.delete_work_type id).
Proof. change_kept. Qed.

Lemma preserves_delete_client id : preserves (Db.delete_client id).
Proof. change_kept. Qed.

Lemma preserves_update_forecast_amount a id :
  preserves (Db.update_forecast_amount a id).
Proof.
  intros t s []. unfold Db.update_forecast_amount. constructor; kept.
  all: apply (Forall_set f_id); [|done]; intros r Hr Hid; simpl;
    match goal with
    | H : Forall _ ?l |- _ => by eapply (proj1 (Forall_forall _ l) H) in Hr
    end.
Qed.

Lemma preserves_delete_forecast id : preserves (Db.delete_forecast id).
Proof. intros t s []. unfold Db.delete_forecast. constructor; kept. Qed.

Create HintDb preserves_db.
#[local] Hint Resolve preserves_insert_business_vertical
  preserves_insert_work_type_origin_type preserves_insert_business_unit
  preserves_insert_work_type preserves_insert_client
  preserves_insert_forecast preserves_update_business_vertical
  preserves_update_work_type_origin_type preserves_update_business_unit
  preserves_update_work_type preserves_update_client
  preserves_update_forecast_amount preserves_delete_business_vertical
  preserves_delete_work_type_origin_type preserves_delete_business_unit
  preserves_delete_work_type preserves_delete_client
  preserves_delete_forecast : preserves_db.

(** One call keeps the constraints, however it ends. *)
Lemma call_keeps k t s :
  consistent t s →
  ∃ t' s', run k (idle t s) = idle t' s' ∧ consistent t' s'.
Proof.
  intros Hc. unfold run.
  destruct k; ApiRuns.unfold_call;
    unfold select_business_vertical, select_business_unit, select_client;
    first
      [ match goal with
        | |- context [?q t s] =>
            lazymatch type of (q t s) with
            | (sequences * _)%type =>
                assert (preserves q) as Hq by auto with preserves_db;
                specialize (Hq t s Hc);
                destruct (q t s) as [s' [e|[t' [|r rows]]]]
            end
        end; simpl; try destruct e; simpl; eexists _, _; by split
      | simpl;
        match goal with
        | |- context [filter ?P ?l] => destruct (filter P l)
        end; simpl; eexists _, _; by split ].
Qed.

Lemma calls_keep ks t s :
  consistent t s →
  ∃ t' s', run_all ks (idle t s) = idle t' s' ∧ consistent t' s'.
Proof.
  revert t s. induction ks as [|k ks IH]; intros t s Hc; [by eexists _, _|].
  simpl. destruct (call_keeps k t s Hc) as (t1 & s1 & -> & Hc1).
  by apply IH.
Qed.

End IntegrityFacts.

(** ** Particular runs of the endpoints *)

Module ApiMore.
Import Schemas Db Py Rest Integrity.

Lemma sample_consistent : consistent sample sample_sequences.
Proof.
  constructor; apply (bool_decide_unpack _); vm_compute; exact I.
Defined.

Lemma hit_of {R} (key : R → Z) (l : list R) r :
  r ∈ l → filter (λ x, key x = key r) l ≠ [].
Proof.
  intros Hr Hnil.
  assert (r ∈ filter (λ x, key x = key r) l) as Hin
    by (by apply list_elem_of_filter).
  rewrite Hnil in Hin. by apply elem_of_nil in Hin.
Qed.

(** The only row of a given id, when ids are unique. *)
Lemma filter_id_unique {R} (key : R → Z) (l : list R) r :
  NoDup (key <$> l) → r ∈ l → filter (λ x, key x = key r) l = [r].
Proof.
  induction l as [|x l IH]; [by intros _ ?%elem_of_nil|].
  rewrite fmap_cons, NoDup_cons, elem_of_cons. intros [Hx Hnd] Hr.
  rewrite filter_cons. case_decide as Hk.
  - assert (x = r) as ->.
    { destruct Hr as [->|Hr]; [done|]. destruct Hx. rewrite Hk.
      by apply list_elem_of_fmap_2. }
    f_equal. apply nil_no_elem. intros y [Hy Hin]%list_elem_of_filter.
    apply Hx. rewrite <- Hy. by apply list_elem_of_fmap_2.
  - destruct Hr as [->|Hr]; [done|]. by apply IH.
Qed.

Lemma id_hit {R} (key : R → Z) (l : list R) id :
  id ∈ (key <$> l) → filter (λ x, key x = id) l ≠ [].
Proof. intros (r & -> & Hr)%list_elem_of_fmap. by apply hit_of. Qed.

Local Ltac run_delete :=
  ApiRuns.unfold_call;
  unfold Db.delete_business_vertical, Db.delete_work_type_origin_type,
    Db.delete_business_unit, Db.delete_work_type, Db.delete_client, guarded;
  simpl.

Lemma delete_vertical_referenced t s id :
  id ∈ (bv_id <$> business_vertical t) →
  id ∈ (bu_vertical_id <$> business_unit t) →
  Database.get_db_conn (Api.delete_vertical id) (idle t s) =
    (idle t s,
     Raise (HTTPException 400
              "Cannot delete vertical, it is referenced by business units.")).
Proof.
  intros Hid Href. run_delete.
  by rewrite bool_decide_true by (split; [by apply id_hit|done]).
Qed.

Lemma delete_origin_referenced t s id :
  id ∈ (wto_id <$> work_type_origin_type t) →
  id ∈ (wt_origin_id <$> work_type t) →
  Database.get_db_conn (Api.delete_work_type_origin_type id) (idle t s) =
    (idle t s,
     Raise (HTTPException 400
              "Cannot delete, it is referenced by work types.")).
Proof.
  intros Hid Href. run_delete.
  by rewrite bool_decide_true by (split; [by apply id_hit|done]).
Qed.

Lemma delete_unit_referenced t s id :
  id ∈ (bu_id <$> business_unit t) →
  id ∈ (c_unit_id <$> clients t) ∨ id ∈ (f_unit_id <$> forecasts t) →
  Database.get_db_conn (Api.delete_unit id) (idle t s) =
    (idle t s,
     Raise (HTTPException 400
              "Cannot delete unit, it is referenced by clients.")).
Proof.
  intros Hid Href. run_delete. case_bool_decide as Hc; [done|].
  destruct Href as [Href|Href].
  - destruct Hc. split; [by apply id_hit|done].
  - by rewrite bool_decide_true by (split; [by apply id_hit|done]).
Qed.

Lemma delete_work_type_referenced t s id :
  id ∈ (wt_id <$> work_type t) →
  id ∈ (f_work_type_id <$> forecasts t) →
  Database.get_db_conn (Api.delete_work_type id) (idle t s) =
    (idle t s,
     Raise (HTTPException 400
              "Cannot delete work type, it is referenced by forecasts.")).
Proof.
  intros Hid Href. run_delete.
  by rewrite bool_decide_true by (split; [by apply id_hit|done]).
Qed.

Lemma delete_client_referenced t s id :
  id ∈ (c_id <$> clients t) →
  id ∈ (f_client_id <$> forecasts t) →
  Database.get_db_conn (Api.delete_client id) (idle t s) =
    (idle t s,
     Raise (HTTPException 400
              "Cannot delete client, it is referenced by forecasts.")).
Proof.
  intros Hid Href. run_delete.
  by rewrite bool_decide_true by (split; [by apply id_hit|done]).
Qed.

(** *** Deleting a forecast *)

Lemma delete_forecast_run t s id :
  Database.get_db_conn (Api.delete_forecast id) (idle t s) =
    (idle (set_forecasts (filter (λ r, f_id r ≠ id) (forecasts t)) t) s,
     match filter (λ r, f_id r = id) (forecasts t) with
     | [] => Raise (HTTPException 404 "Forecast not found")
     | r :: _ => Return r
     end).
Proof.
  ApiRuns.unfold_call. unfold Db.delete_forecast. simpl.
  by destruct (filter _ (forecasts t)).
Qed.

Lemma filter_id_gone {R} (key : R → Z) (l : list R) id :
  filter (λ r, key r = id) (filter (λ r, key r ≠ id) l) = [].
Proof.
  apply nil_no_elem. intros r [Hr [Hne _]%list_elem_of_filter]%list_elem_of_filter.
  done.
Qed.

(** *** Creating a forecast *)

Lemma create_forecast_inv t s fc c1 row :
  Database.get_db_conn (Api.create_forecast fc) (idle t s) = (c1, Return row) →
  row = mkForecast (fc_client_id fc) (fc_unit_id fc) (fc_work_type_id fc)
          (fc_dt fc) (fc_amount fc) (fc_name fc) (forecasts_seq s) ∧
  c1 = idle (set_forecasts (forecasts t ++ [row]) t) (bump_forecasts_seq s).
Proof.
  ApiRuns.unfold_call. unfold insert_forecast, guarded. simpl.
  repeat case_bool_decide; simpl; intros [= <- <-]; done.
Qed.

Lemma create_forecast_duplicate t s fc :
  (fc_unit_id fc, fc_client_id fc, fc_work_type_id fc, fc_dt fc)
    ∈ (unique_forecast <$> forecasts t) →
  Database.get_db_conn (Api.create_forecast fc) (idle t s) =
    (idle t (bump_forecasts_seq s),
     Raise (HTTPException 400
              "This forecast (client, BU, work type, date) already exists.")).
Proof.
  intros Hkey. ApiRuns.unfold_call. unfold insert_forecast, guarded. simpl.
  rewrite (bool_decide_true _ Hkey). by case_bool_decide.
Qed.

Lemma create_forecast_dangling t s fc :
  forecasts_seq s ∉ (f_id <$> forecasts t) →
  (fc_unit_id fc, fc_client_id fc, fc_work_type_id fc, fc_dt fc)
    ∉ (unique_forecast <$> forecasts t) →
  fc_client_id fc ∉ (c_id <$> clients t) ∨
  fc_unit_id fc ∉ (bu_id <$> business_unit t) ∨
  fc_work_type_id fc ∉ (wt_id <$> work_type t) →
  ∃ constraint_name,
    Database.get_db_conn (Api.create_forecast fc) (idle t s) =
      (idle t (bump_forecasts_seq s),
       Raise (HTTPException 404
                ("Invalid foreign key: " +:+ constraint_name))).
Proof.
  intros Hid Hkey Href. ApiRuns.unfold_call. unfold insert_forecast, guarded. simpl.
  rewrite (bool_decide_false _ Hid), (bool_decide_false _ Hkey).
  repeat case_bool_decide; simpl; eauto.
  destruct Href as [?|[?|?]]; done.
Qed.

(** *** Updating a client *)

Lemma update_client_run t s r c :
  NoDup (c_id <$> clients t) → r ∈ clients t →
  Database.get_db_conn (Api.update_client (c_id r) c) (idle t s) =
    if bool_decide
         (cc_name c ∈ (c_name <$> filter (λ x, c_id x ≠ c_id r) (clients t)))
    then (idle t s, Raise (HTTPException 400 "Client name already exists."))
    else if bool_decide (cc_unit_id c ∈ (bu_id <$> business_unit t))
    then
      (idle
         (set_clients
            ((λ x, if decide (c_id x = c_id r)
                   then mkClient (cc_name c) (cc_active c) (cc_start_date c)
                          (cc_end_date c) (cc_unit_id c) (c_id x)
                   else x) <$> clients t) t) s,
       Return (mkClient (cc_name c) (cc_active c) (cc_start_date c)
                 (cc_end_date c) (cc_unit_id c) (c_id r)))
    else (idle t s, Raise (HTTPException 404 "Business unit not found.")).
Proof.
  intros Hnd Hr. ApiRuns.unfold_call. unfold Db.update_client, guarded. simpl.
  rewrite (filter_id_unique c_id _ r Hnd Hr).
  repeat case_bool_decide; simpl; try done; exfalso; intuition done.
Qed.

Lemma update_client_missing t s id c :
  id ∉ (c_id <$> clients t) →
  Database.get_db_conn (Api.update_client id c) (idle t s) =
    (idle t s, Raise (HTTPException 404 "Client not found")).
Proof.
  intros Hid. ApiRuns.unfold_call. unfold Db.update_client, guarded. simpl.
  assert (filter (λ x, c_id x = id) (clients t) = []) as Hnil.
  { apply nil_no_elem. intros x [Hx Hin]%list_elem_of_filter. apply Hid.
    rewrite <- Hx. by apply list_elem_of_fmap_2. }
  rewrite Hnil, !bool_decide_false by (by intros [? _]). simpl.
  rewrite (ApiRuns.fmap_unless_hit c_id) by done.
  by destruct (ApiRuns.same_tables t) as (_ & _ & _ & _ & -> & _).
Qed.

End ApiMore.

(** ** The list endpoints *)

Module ListingFacts.
Import Schemas Db Integrity Listing.

Lemma filter_by_id {R} (key : R → Z) (l : list R) id :
  NoDup (key <$> l) → id ∈ (key <$> l) →
  ∃ r, r ∈ l ∧ key r = id ∧ filter (λ x, key x = id) l = [r].
Proof.
  intros Hnd (r & -> & Hr)%list_elem_of_fmap. exists r. split_and!; [done..|].
  by apply ApiMore.filter_id_unique.
Qed.

(** On consistent tables the join gives exactly one row for a forecast. *)
Lemma joined_one t s f :
  consistent t s → f ∈ forecasts t →
  ∃ row, names_resolved t f row ∧ joined (set_forecasts [f] t) = [row].
Proof.
  intros [] Hf. unfold joined. simpl.
  pose proof (proj1 (Forall_forall _ _) f_client_fkey0 f Hf) as Hc.
  pose proof (proj1 (Forall_forall _ _) f_unit_fkey0 f Hf) as Hu.
  pose proof (proj1 (Forall_forall _ _) f_work_type_fkey0 f Hf) as Hw.
  simpl in Hc, Hu, Hw.
  destruct (filter_by_id c_id _ _ c_pkey0 Hc) as (c & Hcin & Hcid & ->).
  destruct (filter_by_id wt_id _ _ wt_pkey0 Hw) as (wt & Hwin & Hwid & ->).
  destruct (filter_by_id bu_id _ _ bu_pkey0 Hu) as (bu & Huin & Huid & ->).
  pose proof (proj1 (Forall_forall _ _) bu_vertical_fkey0 bu Huin) as Hv.
  simpl in Hv.
  destruct (filter_by_id bv_id _ _ bv_pkey0 Hv) as (bv & Hvin & Hvid & Hfv).
  exists (detail_of f c wt bu bv). split.
  - by exists c, wt, bu, bv.
  - csimpl. rewrite Hfv. csimpl. done.
Qed.

Lemma joined_cons t f fs :
  joined (set_forecasts (f :: fs) t) =
    joined (set_forecasts [f] t) ++ joined (set_forecasts fs t).
Proof. unfold joined. simpl. by rewrite app_nil_r. Qed.

(** On consistent tables the join lists the forecasts one for one, in their
    order, each with the names of the rows it refers to. *)
Lemma joined_rows t s :
  consistent t s →
  Forall2 (names_resolved t) (forecasts t) (joined t).
Proof.
  intros Hc.
  assert (∀ fs, fs ⊆ forecasts t →
            Forall2 (names_resolved t) fs (joined (set_forecasts fs t)))
    as Hall.
  { induction fs as [|f fs IH]; intros Hsub; [constructor|].
    rewrite joined_cons.
    destruct (joined_one t s f Hc) as (row & Hrow & Heq);
      [apply Hsub; left|].
    rewrite Heq. constructor; [done|].
    apply IH. intros x Hx. apply Hsub. by right. }
  specialize (Hall (forecasts t) (λ x Hx, Hx)).
  by destruct (ApiRuns.same_tables t) as (_ & _ & _ & _ & _ & <-).
Qed.

Lemma joined_ids t s :
  consistent t s → App.forecast_id <$> joined t = f_id <$> forecasts t.
Proof.
  intros Hc. induction (joined_rows t s Hc)
    as [|f row fs rows (c & wt & bu & bv & Hrow) _ IH]; [done|].
  csimpl. rewrite IH. f_equal. by rewrite (proj2 (proj2 (proj2 (proj2
    (proj2 (proj2 (proj2 (proj2 Hrow)))))))).
Qed.

Lemma select_page_idle {R} (query : tables → list R) skip limit t s :
  select_page query skip limit (idle t s) =
    (idle t s,
     match limit_offset limit skip (query t) with
     | None => DataError
     | Some rows => Rows rows
     end).
Proof.
  unfold select_page. simpl. by destruct (limit_offset _ _ _).
Qed.

Lemma limit_offset_rows {R} (rows : list R) skip limit :
  row_count skip → row_count limit →
  limit_offset limit skip rows =
    Some (take (Z.to_nat limit) (drop (Z.to_nat skip) rows)).
Proof.
  intros Hs Hl. unfold limit_offset. by rewrite decide_True.
Qed.

Lemma page_sublist {R} (rows : list R) n k :
  take n (drop k rows) `sublist_of` rows.
Proof. etrans; [apply sublist_take|apply sublist_drop]. Qed.

Section OrderBy.
Context (collate : relation string) `{!∀ a b, Decision (collate a b)}.

Lemma get_forecasts_Permutation t : get_forecasts collate t ≡ₚ joined t.
Proof. apply merge_sort_Permutation. Qed.

Lemma date_le_total d1 d2 : date_le d1 d2 ∨ date_le d2 d1.
Proof. unfold date_le. lia. Qed.

Lemma date_le_trans d1 d2 d3 : date_le d1 d2 → date_le d2 d3 → date_le d1 d3.
Proof. unfold date_le. lia. Qed.

Lemma then_by_total a b (P Q : Prop) :
  Total collate → P ∨ Q → then_by collate a b P ∨ then_by collate b a Q.
Proof.
  intros Htot HPQ. unfold then_by.
  destruct (decide (a = b)) as [->|Hne]; [tauto|].
  destruct (Htot a b); [left|right]; left; split; done.
Qed.

Lemma then_by_trans a b c (P Q PQ : Prop) :
  Transitive collate → AntiSymm (=) collate →
  (P → Q → PQ) →
  then_by collate a b P → then_by collate b c Q → then_by collate a c PQ.
Proof.
  intros Htr Has HPQ [[Hab Hne]|[-> HP]] [[Hbc Hne']|[-> HQ]].
  - left. split; [by etrans|]. intros ->. apply Hne. by apply Has.
  - left. done.
  - left. done.
  - right. split; [done|]. by apply HPQ.
Qed.

#[local] Instance order_by_total : Total collate → Total (order_by collate).
Proof.
  intros Htot x y. unfold order_by.
  repeat apply then_by_total; try done. apply date_le_total.
Qed.

#[local] Instance order_by_trans :
  Transitive collate → AntiSymm (=) collate → Transitive (order_by collate).
Proof.
  intros Htr Has x y z. unfold order_by.
  repeat (apply then_by_trans; [done|done|]). apply date_le_trans.
Qed.

Lemma page_StronglySorted (rows : list App.ForecastDetail) n k :
  StronglySorted (order_by collate) rows →
  StronglySorted (order_by collate) (take n (drop k rows)).
Proof.
  intros Hs. rewrite <- (take_drop k rows) in Hs.
  apply StronglySorted_app in Hs as (_ & _ & Hs).
  rewrite <- (take_drop n (drop k rows)) in Hs.
  by apply StronglySorted_app in Hs as (_ & Hs & _).
Qed.

End OrderBy.

End ListingFacts.

(** ** Lists *)

Section MoreListFacts.
Context {A : Type}.

Lemma filter_ext_elem (P Q : A → Prop) `{!∀ x, Decision (P x)}
    `{!∀ x, Decision (Q x)} (l : list A) :
  (∀ x, x ∈ l → P x ↔ Q x) → filter P l = filter Q l.
Proof.
  induction l as [|a l IH]; intros Hl; [done|].
  rewrite !filter_cons.
  assert (filter P l = filter Q l) as ->
    by (apply IH; intros x Hx; apply Hl; by right).
  pose proof (Hl a ltac:(left)) as Ha.
  destruct (decide (P a)), (decide (Q a)); tauto || done.
Qed.

End MoreListFacts.

(** * The endpoints on the tables *)

Import Schemas Db Py.

(** X1: whatever REST call is served on a connection the pool hands out idle,
    the connection goes back to the pool idle, with nothing pending; and
    when the endpoint raised, the tables are the tables of the start. *)
Theorem X1_a_call_that_raises_changes_no_table k t s :
  ∃ t' s' r,
    Database.get_db_conn (Rest.endpoint k) (idle t s) = (idle t' s', r) ∧
    (∀ e, r = Raise e → t' = t).
Proof. apply ApiRuns.call_run. Qed.

(** X2: the constraints of the schema (primary keys, unique names, the
    unique four-way key of a forecast, every foreign key, ids below their
    sequence) hold after every sequence of REST calls that starts from tables
    on which they hold. *)
Theorem X2_calls_keep_the_constraints ks t s :
  Integrity.consistent t s →
  ∃ t' s',
    Integrity.run_all ks (idle t s) = idle t' s' ∧
    Integrity.consistent t' s'.
Proof. apply IntegrityFacts.calls_keep. Qed.

Lemma X2_witness :
  Integrity.consistent sample sample_sequences ∧
  ∃ t' s',
    Integrity.run_all
      [Rest.CreateForecast
         (mkForecastCreate 1 3 1 (mkdate 2025 11 1) 10 None);
       Rest.DeleteVertical 1;
       Rest.DeleteForecast 4;
       Rest.UpdateClient 2
         (mkClientCreate "Acme Corp" None (mkdate 2024 5 15) None 2);
       Rest.CreateUnit (mkBusinessUnitCreate "Advisory" 9)]
      (idle sample sample_sequences) = idle t' s' ∧
    Integrity.consistent t' s'.
Proof.
  split; [exact ApiMore.sample_consistent|].
  exact (X2_calls_keep_the_constraints _ sample sample_sequences
           ApiMore.sample_consistent).
Defined.











(** * The list endpoints *)

Module ListingMore.
Import Integrity Listing.

Lemma joined_resolved t s row :
  consistent t s → row ∈ joined t →
  ∃ f, f ∈ forecasts t ∧ names_resolved t f row.
Proof.
  intros Hc Hrow. apply list_elem_of_lookup in Hrow as [i Hi].
  destruct (Forall2_lookup_r _ _ _ _ _ (ListingFacts.joined_rows t s Hc) Hi)
    as (f & Hf & Hres).
  exists f. split; [|done]. apply list_elem_of_lookup. eauto.
Qed.

Lemma joined_length t s :
  consistent t s → length (joined t) = length (forecasts t).
Proof.
  intros Hc. symmetry.
  exact (Forall2_length _ _ _ (ListingFacts.joined_rows t s Hc)).
Qed.

(** No two rows of the join agree on the names of the business unit, the
    client and the work type and on the date. *)
Lemma joined_key t s row1 row2 :
  consistent t s → row1 ∈ joined t → row2 ∈ joined t →
  App.business_unit_name row1 = App.business_unit_name row2 →
  App.client_name row1 = App.client_name row2 →
  App.work_type_name row1 = App.work_type_name row2 →
  App.dt row1 = App.dt row2 →
  row1 = row2.
Proof.
  intros Hc H1 H2 Hbu Hcl Hwt Hdt.
  destruct (joined_resolved t s row1 Hc H1)
    as (f1 & Hf1 & c1 & wt1 & bu1 & bv1 &
        Hc1 & Hcid1 & Hw1 & Hwid1 & Hb1 & Hbid1 & Hv1 & Hvid1 & ->).
  destruct (joined_resolved t s row2 Hc H2)
    as (f2 & Hf2 & c2 & wt2 & bu2 & bv2 &
        Hc2 & Hcid2 & Hw2 & Hwid2 & Hb2 & Hbid2 & Hv2 & Hvid2 & ->).
  simpl in *. destruct Hc.
  assert (bu1 = bu2) as <- by by eapply (NoDup_fmap_eq bu_name).
  assert (c1 = c2) as <- by by eapply (NoDup_fmap_eq c_name).
  assert (wt1 = wt2) as <- by by eapply (NoDup_fmap_eq wt_name).
  assert (bv1 = bv2) as <-
    by (eapply (NoDup_fmap_eq bv_id); [done..|congruence]).
  assert (f1 = f2) as <-
    by (eapply (NoDup_fmap_eq unique_forecast); [done..|];
        unfold unique_forecast; congruence).
  done.
Qed.

#[global] Instance by_code_total : Total by_code.
Proof. intros a b. unfold by_code. lia. Qed.

#[global] Instance by_code_trans : Transitive by_code.
Proof. intros a b c. unfold by_code. lia. Qed.

#[global] Instance by_code_antisymm : AntiSymm (=) by_code.
Proof.
  intros a b Hab Hba. unfold by_code in *.
  apply (inj encode). lia.
Qed.

End ListingMore.

(** X8: on tables that satisfy the constraints of the schema, [GET
    /forecasts/] with [skip = 0] and a [limit] that is not below the number
    of forecasts (and fits a [bigint]) lists every forecast exactly once, each with the names of
    the client, work type and business unit it refers to and of that unit's
    vertical; the connection goes back unchanged. *)
Theorem X8_every_forecast_is_listed_once (collate : relation string)
    `{!∀ a b, Decision (collate a b)} t s limit :
  Integrity.consistent t s →
  Z.of_nat (length (forecasts t)) ≤ limit < 2 ^ 63 →
  ∃ rows,
    Listing.read_forecasts collate 0 limit (idle t s) =
      (idle t s, Listing.Rows rows) ∧
    App.forecast_id <$> rows ≡ₚ f_id <$> forecasts t ∧
    ∀ row, row ∈ rows →
      ∃ f, f ∈ forecasts t ∧ Listing.names_resolved t f row.
Proof.
  intros Hc Hlimit. unfold Listing.read_forecasts.
  rewrite ListingFacts.select_page_idle.
  rewrite ListingFacts.limit_offset_rows by (unfold Listing.row_count; lia).
  change (Z.to_nat 0) with 0%nat. rewrite drop_0.
  pose proof (ListingFacts.get_forecasts_Permutation collate t) as Hp.
  rewrite take_ge
    by (rewrite Hp, (ListingMore.joined_length t s Hc); lia).
  eexists. split_and!; [done| |].
  - rewrite Hp. by rewrite (ListingFacts.joined_ids t s).
  - intros row Hrow. rewrite Hp in Hrow.
    by apply (ListingMore.joined_resolved t s).
Qed.

Lemma X8_witness :
  Integrity.consistent sample sample_sequences ∧
  Z.of_nat (length (forecasts sample)) ≤ Listing.default_limit < 2 ^ 63 ∧
  ∃ rows,
    Listing.read_forecasts Listing.by_code 0 Listing.default_limit
      (idle sample sample_sequences) =
      (idle sample sample_sequences, Listing.Rows rows) ∧
    App.forecast_id <$> rows ≡ₚ f_id <$> forecasts sample ∧
    ∀ row, row ∈ rows →
      ∃ f, f ∈ forecasts sample ∧ Listing.names_resolved sample f row.
Proof.
  assert (Z.of_nat (length (forecasts sample)) ≤ Listing.default_limit
          < 2 ^ 63) as Hlimit by (vm_compute; split; [discriminate|done]).
  split; [exact ApiMore.sample_consistent|]. split; [exact Hlimit|].
  exact (X8_every_forecast_is_listed_once Listing.by_code sample
           sample_sequences Listing.default_limit ApiMore.sample_consistent
           Hlimit).
Defined.

(** X9: under a collation that is a total order on names, every page of
    [GET /forecasts/] on tables that satisfy the constraints of the schema,
    for a [skip] and a [limit] that [OFFSET] and [LIMIT] accept, is ordered by vertical, business unit, client and work type name and
    then by date, shows no forecast twice, and has [limit] rows or, when
    fewer are left after [skip], those that are left. *)
Theorem X9_a_page_of_forecasts_is_ordered (collate : relation string)
    `{!∀ a b, Decision (collate a b)} t s skip limit :
  Total collate → Transitive collate → AntiSymm (=) collate →
  Integrity.consistent t s →
  Listing.row_count skip → Listing.row_count limit →
  ∃ rows,
    Listing.read_forecasts collate skip limit (idle t s) =
      (idle t s, Listing.Rows rows) ∧
    StronglySorted (Listing.order_by collate) rows ∧
    NoDup (App.forecast_id <$> rows) ∧
    length rows =
      (Z.to_nat limit `min` (length (forecasts t) - Z.to_nat skip))%nat.
Proof.
  intros Htot Htr Has Hc Hskip Hlimit. unfold Listing.read_forecasts.
  rewrite ListingFacts.select_page_idle.
  rewrite ListingFacts.limit_offset_rows by done.
  pose proof (ListingFacts.get_forecasts_Permutation collate t) as Hp.
  eexists. split_and!; [done| | |].
  - apply ListingFacts.page_StronglySorted.
    apply StronglySorted_merge_sort.
    + by apply ListingFacts.order_by_trans.
    + by apply ListingFacts.order_by_total.
  - eapply sublist_NoDup;
      [|apply fmap_sublist, ListingFacts.page_sublist].
    rewrite Hp, (ListingFacts.joined_ids t s) by done. by destruct Hc.
  - rewrite length_take, length_drop, Hp.
    by rewrite (ListingMore.joined_length t s).
Qed.

Lemma X9_witness :
  Total Listing.by_code ∧ Transitive Listing.by_code ∧
  AntiSymm (=) Listing.by_code ∧
  Integrity.consistent sample sample_sequences ∧
  Listing.row_count 4 ∧ Listing.row_count 5 ∧
  ∃ rows,
    Listing.read_forecasts Listing.by_code 4 5
      (idle sample sample_sequences) =
      (idle sample sample_sequences, Listing.Rows rows) ∧
    StronglySorted (Listing.order_by Listing.by_code) rows ∧
    NoDup (App.forecast_id <$> rows) ∧
    length rows =
      (Z.to_nat 5 `min` (length (forecasts sample) - Z.to_nat 4))%nat.
Proof.
  assert (Listing.row_count 4) as H4 by (unfold Listing.row_count; lia).
  assert (Listing.row_count 5) as H5 by (unfold Listing.row_count; lia).
  do 3 (split; [apply _|]).
  split; [exact ApiMore.sample_consistent|].
  split; [exact H4|]. split; [exact H5|].
  exact (X9_a_page_of_forecasts_is_ordered Listing.by_code sample
           sample_sequences 4 5 ListingMore.by_code_total
           ListingMore.by_code_trans ListingMore.by_code_antisymm
           ApiMore.sample_consistent H4 H5).
Defined.

(** X10: on tables that satisfy the constraints of the schema, two rows of
    the forecast listing that show the same business unit, client, work
    type and date are the same row: the [ORDER BY] of [get_forecasts] leaves
    no two rows in an undetermined order, and the display columns the
    forecast page merges on identify a forecast. *)
Theorem X10_listed_rows_differ_in_the_display_columns
    (collate : relation string) `{!∀ a b, Decision (collate a b)}
    t s row1 row2 :
  Integrity.consistent t s →
  row1 ∈ Listing.get_forecasts collate t →
  row2 ∈ Listing.get_forecasts collate t →
  App.business_unit_name row1 = App.business_unit_name row2 →
  App.client_name row1 = App.client_name row2 →
  App.work_type_name row1 = App.work_type_name row2 →
  App.dt row1 = App.dt row2 →
  row1 = row2.
Proof.
  intros Hc H1 H2.
  rewrite (ListingFacts.get_forecasts_Permutation collate t) in H1, H2.
  by apply (ListingMore.joined_key t s).
Qed.

Lemma X10_witness :
  App.mkForecastDetail 4 "Technology" "Consulting Services" "Acme Corp"
    "Development" (mkdate 2025 11 1) 25000
    ∈ Listing.get_forecasts Listing.by_code sample ∧
  ∀ row2,
    row2 ∈ Listing.get_forecasts Listing.by_code sample →
    App.business_unit_name row2 = "Consulting Services"%string →
    App.client_name row2 = "Acme Corp"%string →
    App.work_type_name row2 = "Development"%string →
    App.dt row2 = mkdate 2025 11 1 →
    row2 =
      App.mkForecastDetail 4 "Technology" "Consulting Services" "Acme Corp"
        "Development" (mkdate 2025 11 1) 25000.
Proof.
  assert (App.mkForecastDetail 4 "Technology" "Consulting Services"
            "Acme Corp" "Development" (mkdate 2025 11 1) 25000
            ∈ Listing.get_forecasts Listing.by_code sample) as H1
    by (apply (bool_decide_unpack _); vm_compute; exact I).
  split; [exact H1|].
  intros row2 H2 Hbu Hcl Hwt Hdt. symmetry.
  exact (X10_listed_rows_differ_in_the_display_columns Listing.by_code
           sample sample_sequences _ row2 ApiMore.sample_consistent H1 H2
           (eq_sym Hbu) (eq_sym Hcl) (eq_sym Hwt) (eq_sym Hdt)).
Defined.


(** * The pages *)

Module PagesMore.

Section Forecasts.
Context {S : Type}.
Variable serve : request → S → S * reply.

Lemma forecast_update_loop_raises upd st n st' n' x o e :
  App.update_loop serve upd st n = (st', n', x) →
  App.both o e ∈ upd → App.e_forecast_amount e = None →
  x = Some (ValueError "cannot convert float NaN to integer").
Proof.
  revert st n. induction upd as [|r upd IH]; intros st n Hrun Hin Hnone.
  { by apply elem_of_nil in Hin. }
  apply elem_of_cons in Hin as [<-|Hin].
  - simpl in Hrun. rewrite Hnone in Hrun. congruence.
  - destruct r as [o' e'| |]; simpl in Hrun; [|by eapply IH..].
    destruct (App.e_forecast_amount e'); [|congruence].
    destruct (dispatch _ _ _ _ _ _) as [st1 n1]. by eapply IH.
Qed.

End Forecasts.

Section Verticals.
Context {S : Type}.
Variable serve : request → S → S * reply.
(** The API cannot be reached. *)
Hypothesis down : ∀ rq s, ∃ e, serve rq s = (s, RequestException e).

Lemma vertical_update_loop_down orig ed st n :
  match omap (Verticals.put_of orig) ed with
  | [] => Verticals.update_loop serve orig ed st n = (st, n, None)
  | rq :: _ =>
      ∃ e, Verticals.update_loop serve orig ed st n =
             (mkSession (server st) (sent st ++ [rq]) (shown st), n,
              Some (Verticals.ConnectionError e))
  end.
Proof.
  induction ed as [|[index name] ed IH]; [done|].
  simpl. unfold Verticals.put_of at 1. simpl.
  destruct (Verticals.partner orig index) as [[id original_name]|]; simpl;
    [|exact IH].
  destruct (decide (name ≠ original_name)); simpl; [|exact IH].
  unfold Verticals.dispatch_bare, http.
  destruct (down (PUT "verticals" id
                    [("business_vertical_name"%string, JStr name)])
              (server st)) as [e ->].
  by exists e.
Qed.

Lemma vertical_delete_loop_down id ids st n :
  ∃ e, Verticals.delete_loop serve (id :: ids) st n =
         (mkSession (server st) (sent st ++ [DELETE "verticals" id])
            (shown st), n,
          Some (Verticals.ConnectionError e)).
Proof.
  simpl. unfold Verticals.dispatch_bare, http.
  destruct (down (DELETE "verticals" id) (server st)) as [e ->].
  by exists e.
Qed.

End Verticals.

End PagesMore.






(** * Forecast ids over time *)

Module ForecastIds.
Import Integrity Rest.

(** [r'] is the forecast [r], up to its amount. *)
Definition same_forecast (r r' : Forecast) : Prop :=
  f_id r' = f_id r ∧ unique_forecast r' = unique_forecast r ∧
  f_name r' = f_name r.

(** From [(t, s)] to [(t', s')] the sequence of the forecast ids did not go
    back, and every forecast of [t'] is a forecast of [t] or has an id the
    sequence had not given out. *)
Definition later (t : tables) (s : sequences) (t' : tables) (s' : sequences)
    : Prop :=
  forecasts_seq s ≤ forecasts_seq s' ∧
  ∀ r', r' ∈ forecasts t' →
        (∃ r, r ∈ forecasts t ∧ same_forecast r r') ∨
        forecasts_seq s ≤ f_id r'.

Lemma later_same t s t' s' :
  forecasts_seq s ≤ forecasts_seq s' → forecasts t' = forecasts t →
  later t s t' s'.
Proof.
  intros Hs Ht. split; [done|]. intros r' Hr'. left. exists r'.
  rewrite <- Ht. done.
Qed.

Lemma later_trans t s t1 s1 t2 s2 :
  later t s t1 s1 → later t1 s1 t2 s2 → later t s t2 s2.
Proof.
  intros [Hs1 H1] [Hs2 H2]. split; [lia|].
  intros r2 Hr2. destruct (H2 r2 Hr2) as [(r1 & Hr1 & Hid & Hk & Hn)|Hnew];
    [|right; lia].
  destruct (H1 r1 Hr1) as [(r & Hr & Hid' & Hk' & Hn')|Hnew].
  - left. exists r. split; [done|]. split_and!; congruence.
  - right. lia.
Qed.

Definition stable {R} (q : statement R) : Prop :=
  ∀ t s,
    match q t s with
    | (s', inl _) => forecasts_seq s ≤ forecasts_seq s'
    | (s', inr (t', _)) => later t s t' s'
    end.

Local Ltac elsewhere :=
  let Hg := fresh "Hg" in
  intros t s;
  unfold insert_business_vertical, insert_work_type_origin_type,
    insert_business_unit, insert_work_type, insert_client,
    select_business_vertical, select_business_unit, select_client,
    Db.update_business_vertical, Db.update_work_type_origin_type,
    Db.update_business_unit, Db.update_work_type, Db.update_client,
    Db.delete_business_vertical, Db.delete_work_type_origin_type,
    Db.delete_business_unit, Db.delete_work_type, Db.delete_client;
  first
    [ destruct (guarded _ _) as [e|[t' rows]] eqn:Hg;
      [ simpl; lia
      | apply ApiRuns.guarded_ok in Hg; injection Hg as -> ->;
        apply later_same; simpl; [lia|done] ]
    | apply later_same; simpl; [lia|done] ].

Lemma stable_insert_business_vertical n : stable (insert_business_vertical n).
Proof. elsewhere. Qed.
Lemma stable_insert_work_type_origin_type n :
  stable (insert_work_type_origin_type n).
Proof. elsewhere. Qed.
Lemma stable_insert_business_unit n v : stable (insert_business_unit n v).
Proof. elsewhere. Qed.
Lemma stable_insert_work_type n o : stable (insert_work_type n o).
Proof. elsewhere. Qed.
Lemma stable_insert_client c : stable (insert_client c).
Proof. elsewhere. Qed.
Lemma stable_select_business_vertical id :
  stable (select_business_vertical id).
Proof. elsewhere. Qed.
Lemma stable_select_business_unit id : stable (select_business_unit id).
Proof. elsewhere. Qed.
Lemma stable_select_client id : stable (select_client id).
Proof. elsewhere. Qed.
Lemma stable_update_business_vertical n id :
  stable (Db.update_business_vertical n id).
Proof. elsewhere. Qed.
Lemma stable_update_work_type_origin_type n id :
  stable (Db.update_work_type_origin_type n id).
Proof. elsewhere. Qed.
Lemma stable_update_business_unit n v id :
  stable (Db.update_business_unit n v id).
Proof. elsewhere. Qed.
Lemma stable_update_work_type n o id : stable (Db.update_work_type n o id).
Proof. elsewhere. Qed.
Lemma stable_update_client c id : stable (Db.update_client c id).
Proof. elsewhere. Qed.
Lemma stable_delete_business_vertical id :
  stable (Db.delete_business_vertical id).
Proof. elsewhere. Qed.
Lemma stable_delete_work_type_origin_type id :
  stable (Db.delete_work_type_origin_type id).
Proof. elsewhere. Qed.
Lemma stable_delete_business_unit id : stable (Db.delete_business_unit id).
Proof. elsewhere. Qed.
Lemma stable_delete_work_type id : stable (Db.delete_work_type id).
Proof. elsewhere. Qed.
Lemma stable_delete_client id : stable (Db.delete_client id).
Proof. elsewhere. Qed.

Lemma stable_insert_forecast f : stable (insert_forecast f).
Proof.
  intros t s. unfold insert_forecast.
  destruct (guarded _ _) as [e|[t' rows]] eqn:Hg; [simpl; lia|].
  apply ApiRuns.guarded_ok in Hg. injection Hg as -> ->.
  split; [simpl; lia|]. simpl. intros r' [Hr'|Hr']%elem_of_app.
  - left. by exists r'.
  - apply list_elem_of_singleton in Hr' as ->. right. simpl. lia.
Qed.

Lemma stable_update_forecast_amount a id :
  stable (Db.update_forecast_amount a id).
Proof.
  intros t s. unfold Db.update_forecast_amount. split; [lia|]. simpl.
  intros r' (r & -> & Hr)%list_elem_of_fmap. left. exists r.
  split; [done|]. by case_decide.
Qed.

Lemma stable_delete_forecast id : stable (Db.delete_forecast id).
Proof.
  intros t s. unfold Db.delete_forecast. split; [lia|]. simpl.
  intros r' [_ Hr']%list_elem_of_filter. left. by exists r'.
Qed.

Create HintDb stable_db discriminated.
#[local] Hint Resolve stable_insert_business_vertical
  stable_insert_work_type_origin_type stable_insert_business_unit
  stable_insert_work_type stable_insert_client stable_insert_forecast
  stable_select_business_vertical stable_select_business_unit
  stable_select_client stable_update_business_vertical
  stable_update_work_type_origin_type stable_update_business_unit
  stable_update_work_type stable_update_client stable_update_forecast_amount
  stable_delete_business_vertical stable_delete_work_type_origin_type
  stable_delete_business_unit stable_delete_work_type stable_delete_client
  stable_delete_forecast : stable_db.

Lemma call_later k t s :
  ∃ t' s', run k (idle t s) = idle t' s' ∧ later t s t' s'.
Proof.
  unfold run.
  destruct k; ApiRuns.unfold_call;
    match goal with
    | |- context [?q t s] =>
        lazymatch type of (q t s) with
        | (sequences * _)%type =>
            assert (stable q) as Hq by auto with stable_db;
            specialize (Hq t s);
            destruct (q t s) as [s' [e|[t' [|r rows]]]]
        end
    end; simpl; try destruct e; simpl; eexists _, _;
    (split; [reflexivity|]);
    first [ done | by apply later_same
          | apply later_same; [apply Hq|done] ].
Qed.

Lemma calls_later ks t s :
  ∃ t' s', run_all ks (idle t s) = idle t' s' ∧ later t s t' s'.
Proof.
  revert t s. induction ks as [|k ks IH]; intros t s.
  { eexists _, _. split; [done|]. by apply later_same. }
  simpl. destruct (call_later k t s) as (t1 & s1 & -> & H1).
  destruct (IH t1 s1) as (t2 & s2 & -> & H2).
  eexists _, _. split; [done|]. by eapply later_trans.
Qed.

End ForecastIds.

(** X15: a forecast id never comes to stand for another forecast.  Whatever
    REST calls are served after a forecast was read, a row that carries its
    id is that forecast, for the same client, business unit, work type and
    date and with the same name; only the amount can differ.  An id that was
    deleted is not given to a later forecast. *)
Theorem X15_a_forecast_id_keeps_its_forecast ks t s r :
  Integrity.consistent t s → r ∈ forecasts t →
  ∃ t' s',
    Integrity.run_all ks (idle t s) = idle t' s' ∧
    ∀ r', r' ∈ forecasts t' → f_id r' = f_id r →
          r' = set_amount (f_amount r') r.
Proof.
  intros Hc Hr.
  destruct (ForecastIds.calls_later ks t s) as (t' & s' & Hrun & _ & Hlater).
  exists t', s'. split; [done|]. intros r' Hr' Hid.
  destruct (Hlater r' Hr') as [(r0 & Hr0 & Hid0 & Hkey & Hname)|Hnew].
  - assert (r0 = r) as ->.
    { apply (NoDup_fmap_eq f_id (forecasts t)); [by destruct Hc|done..|].
      congruence. }
    unfold unique_forecast in Hkey. destruct r, r'. simpl in *.
    unfold set_amount. simpl. congruence.
  - pose proof (Integrity.f_serial t s Hc) as Hserial.
    rewrite Forall_forall in Hserial. specialize (Hserial r Hr). lia.
Qed.

Lemma X15_witness :
  Integrity.consistent sample sample_sequences ∧
  (mkForecast 1 1 2 (mkdate 2025 11 1) 25000 None 4 ∈ forecasts sample) ∧
  ∃ t' s',
    Integrity.run_all
      [Rest.UpdateForecast 4 (mkForecastUpdate 1);
       Rest.DeleteForecast 4;
       Rest.CreateForecast
         (mkForecastCreate 2 2 2 (mkdate 2025 11 1) 5 None)]
      (idle sample sample_sequences) = idle t' s' ∧
    ∀ r', r' ∈ forecasts t' →
          f_id r' = f_id (mkForecast 1 1 2 (mkdate 2025 11 1) 25000 None 4) →
          r' = set_amount (f_amount r')
                 (mkForecast 1 1 2 (mkdate 2025 11 1) 25000 None 4).
Proof.
  assert (mkForecast 1 1 2 (mkdate 2025 11 1) 25000 None 4 ∈ forecasts sample)
    as Hr by (apply (bool_decide_unpack _); vm_compute; exact I).
  split_and!; [exact ApiMore.sample_consistent | exact Hr |].
  exact (X15_a_forecast_id_keeps_its_forecast _ sample sample_sequences _
           ApiMore.sample_consistent Hr).
Defined.

(** * The "Add New Forecast" form *)

Module AddForecastFacts.
Import AddForecast.

Lemma dict_zip_lookup (pairs : list (string * Z)) k v :
  NoDup pairs.*1 → (k, v) ∈ pairs → dict_zip pairs !! k = Some v.
Proof.
  intros Hnd Hin. unfold dict_zip. apply elem_of_list_to_map_1.
  - by rewrite fmap_reverse, reverse_Permutation.
  - by apply elem_of_reverse.
Qed.

Lemma client_map_lookup df_clients c :
  NoDup (c_name <$> df_clients) → c ∈ df_clients →
  ∃ m, client_map df_clients = inr m ∧ m !! c_name c = Some (c_id c).
Proof.
  intros Hnd Hc. unfold client_map.
  destruct df_clients as [|c0 l] eqn:Hl; [by apply elem_of_nil in Hc|].
  rewrite <- Hl in *. eexists. split; [done|].
  apply dict_zip_lookup.
  - by rewrite <- list_fmap_compose.
  - by apply (list_elem_of_fmap_2 (λ c, (c_name c, c_id c))).
Qed.

Lemma work_type_map_lookup df_work_types w :
  NoDup (wt_name <$> df_work_types) → w ∈ df_work_types →
  ∃ m, work_type_map df_work_types = inr m ∧
       m !! wt_name w = Some (wt_id w).
Proof.
  intros Hnd Hw. unfold work_type_map.
  destruct df_work_types as [|w0 l] eqn:Hl; [by apply elem_of_nil in Hw|].
  rewrite <- Hl in *. eexists. split; [done|].
  apply dict_zip_lookup.
  - by rewrite <- list_fmap_compose.
  - by apply (list_elem_of_fmap_2 (λ w, (wt_name w, wt_id w))).
Qed.

End AddForecastFacts.



(** X17: the section sends at most one request, and only ever a POST of a
    forecast; when the list of clients or the list of work types is empty
    (nothing is there yet, or the fetch failed), building the lookup maps
    raises [KeyError] and nothing is sent, whatever the form holds. *)
Theorem X17_no_lookup_rows_no_request {S}
    (serve : request → S → S * reply) df_clients df_work_types client_name
    work_type_name forecast_date forecast_amount st :
  ∃ st' r,
    AddForecast.add_new_forecast serve df_clients df_work_types client_name
      work_type_name forecast_date forecast_amount st = (st', r) ∧
    (sent st' = sent st ∨
     ∃ body, sent st' = sent st ++ [POST "forecasts" body]) ∧
    (df_clients = [] ∨ df_work_types = [] →
     st' = st ∧ ∃ key, r = AddForecast.KeyError key).
Proof.
  unfold AddForecast.add_new_forecast, AddForecast.client_map,
    AddForecast.work_type_map.
  destruct df_clients as [|c0 cs].
  { eexists _, _. split; [done|]. split; [by left|]. eauto. }
  destruct df_work_types as [|w0 ws].
  { eexists _, _. split; [done|]. split; [by left|]. eauto. }
  destruct (_ !! client_name);
    [|eexists _, _; split; [done|]; split; [by left|]; by intros [|]].
  destruct (_ !! work_type_name);
    [|eexists _, _; split; [done|]; split; [by left|]; by intros [|]].
  destruct (head _);
    [|eexists _, _; split; [done|]; split; [by left|]; by intros [|]].
  unfold http. destruct (serve _ (server st)) as [s' [status_code detail|e]].
  - case_decide; eexists _, _; (split; [done|]);
      (split; [right; by eexists|by intros [|]]).
  - eexists _, _. split; [done|]. split; [right; by eexists|by intros [|]].
Qed.

(** * Deleting a row nothing refers to *)

Module DeleteFacts.

Lemma filter_other_ids {R} `{EqDecision R} (key : R → Z) (l : list R) r :
  NoDup (key <$> l) → r ∈ l →
  filter (λ x, key x ≠ key r) l = filter (λ x, x ≠ r) l.
Proof.
  intros Hnd Hr. apply filter_ext_elem. intros x Hx. split.
  - intros Hne ->. done.
  - intros Hne Heq. apply Hne. by apply (NoDup_fmap_eq key l).
Qed.

Ltac deleted key Hnd Hr :=
  ApiRuns.unfold_call;
  unfold Db.delete_business_vertical, Db.delete_work_type_origin_type,
    Db.delete_business_unit, Db.delete_work_type, Db.delete_client, guarded;
  simpl;
  rewrite (ApiMore.filter_id_unique key _ _ Hnd Hr);
  rewrite !bool_decide_false by (by intros [_ ?]); simpl;
  by rewrite (filter_other_ids key _ _ Hnd Hr).

End DeleteFacts.

(** X18: a delete of a row that is there and that no row of another table
    refers to, the ids of its table being unique, returns the row as it
    was and takes that row and no other out of its table; this holds for
    verticals, origin types, business units, work types and clients. *)
Theorem X18_delete_of_an_unreferenced_row t s :
  (∀ r, NoDup (bv_id <$> business_vertical t) → r ∈ business_vertical t →
        bv_id r ∉ (bu_vertical_id <$> business_unit t) →
        Database.get_db_conn (Api.delete_vertical (bv_id r)) (idle t s) =
          (idle (set_business_vertical
                   (filter (λ x, x ≠ r) (business_vertical t)) t) s,
           Return r)) ∧
  (∀ r, NoDup (wto_id <$> work_type_origin_type t) →
        r ∈ work_type_origin_type t →
        wto_id r ∉ (wt_origin_id <$> work_type t) →
        Database.get_db_conn (Api.delete_work_type_origin_type (wto_id r))
          (idle t s) =
          (idle (set_work_type_origin_type
                   (filter (λ x, x ≠ r) (work_type_origin_type t)) t) s,
           Return r)) ∧
  (∀ r, NoDup (bu_id <$> business_unit t) → r ∈ business_unit t →
        bu_id r ∉ (c_unit_id <$> clients t) →
        bu_id r ∉ (f_unit_id <$> forecasts t) →
        Database.get_db_conn (Api.delete_unit (bu_id r)) (idle t s) =
          (idle (set_business_unit
                   (filter (λ x, x ≠ r) (business_unit t)) t) s,
           Return r)) ∧
  (∀ r, NoDup (wt_id <$> work_type t) → r ∈ work_type t →
        wt_id r ∉ (f_work_type_id <$> forecasts t) →
        Database.get_db_conn (Api.delete_work_type (wt_id r)) (idle t s) =
          (idle (set_work_type (filter (λ x, x ≠ r) (work_type t)) t) s,
           Return r)) ∧
  (∀ r, NoDup (c_id <$> clients t) → r ∈ clients t →
        c_id r ∉ (f_client_id <$> forecasts t) →
        Database.get_db_conn (Api.delete_client (c_id r)) (idle t s) =
          (idle (set_clients (filter (λ x, x ≠ r) (clients t)) t) s,
           Return r)).
Proof.
  split_and!.
  - intros r Hnd Hr Href. DeleteFacts.deleted bv_id Hnd Hr.
  - intros r Hnd Hr Href. DeleteFacts.deleted wto_id Hnd Hr.
  - intros r Hnd Hr Href Href'. DeleteFacts.deleted bu_id Hnd Hr.
  - intros r Hnd Hr Href. DeleteFacts.deleted wt_id Hnd Hr.
  - intros r Hnd Hr Href. DeleteFacts.deleted c_id Hnd Hr.
Qed.

Lemma X18_witness :
  Database.get_db_conn (Api.delete_client 3) (idle sample sample_sequences) =
    (idle
       (set_clients
          (filter
             (λ x, x ≠ mkClient "Gamma Solutions" (Some false)
                         (mkdate 2022 3 10) None 1 3)
             (clients sample)) sample) sample_sequences,
     Return (mkClient "Gamma Solutions" (Some false) (mkdate 2022 3 10) None
               1 3)).
Proof.
  apply (proj2 (proj2 (proj2 (proj2
           (X18_delete_of_an_unreferenced_row sample sample_sequences))))
           (mkClient "Gamma Solutions" (Some false) (mkdate 2022 3 10) None
              1 3)).
  - apply (bool_decide_unpack _). vm_compute. exact I.
  - apply (bool_decide_unpack _). vm_compute. exact I.
  - apply (bool_decide_unpack _). vm_compute. exact I.
Defined.

(** * A save that the API accepts *)

Module Accepted.

Section Loops.
Context {S : Type}.
Variable serve : request → S → S * reply.
(** The API answers every request with status 200. *)
Hypothesis accepts : ∀ rq s, ∃ s' detail, serve rq s = (s', Response 200 detail).

Lemma dispatch_accepted context id rq st n :
  ∃ st', dispatch serve context id rq st n = (st', Datatypes.S n) ∧
         sent st' = sent st ++ [rq] ∧ shown st' = shown st.
Proof.
  unfold dispatch, http.
  destruct (accepts rq (server st)) as (s' & detail & ->).
  rewrite decide_True by done. by eexists.
Qed.

Lemma update_loop_accepted upd st n :
  (∀ o e, App.both o e ∈ upd → is_Some (App.e_forecast_amount e)) →
  ∃ st',
    App.update_loop serve upd st n =
      (st', (n + length (omap App.put_of upd))%nat, None) ∧
    sent st' = sent st ++ omap App.put_of upd ∧ shown st' = shown st.
Proof.
  revert st n. induction upd as [|r upd IH]; intros st n Hall.
  { exists st. by rewrite Nat.add_0_r, app_nil_r. }
  assert (∀ o e, App.both o e ∈ upd → is_Some (App.e_forecast_amount e))
    as Hall' by (intros o e Hin; apply (Hall o e); by right).
  destruct r as [o e| |]; simpl; [|by apply IH..].
  destruct (Hall o e ltac:(left)) as [a Ha]. rewrite Ha. simpl.
  destruct (dispatch_accepted "update forecast" (App.forecast_id o)
              (PUT "forecasts" (App.forecast_id o)
                 [("forecast_amount"%string, JInt a)]) st n)
    as (st1 & -> & Hsent & Hshown).
  destruct (IH st1 (Datatypes.S n) Hall') as (st' & -> & Hsent' & Hshown').
  exists st'. split_and!.
  - by rewrite Nat.add_succ_r.
  - by rewrite Hsent', Hsent, <- app_assoc.
  - congruence.
Qed.

Lemma delete_loop_accepted dels st n :
  ∃ st',
    App.delete_loop serve dels st n =
      (st', (n + length (omap App.del_of dels))%nat) ∧
    sent st' = sent st ++ omap App.del_of dels ∧ shown st' = shown st.
Proof.
  revert st n. induction dels as [|r dels IH]; intros st n.
  { exists st. by rewrite Nat.add_0_r, app_nil_r. }
  destruct r as [| o |]; simpl; [by apply IH| |by apply IH].
  destruct (dispatch_accepted "delete forecast" (App.forecast_id o)
              (DELETE "forecasts" (App.forecast_id o)) st n)
    as (st1 & -> & Hsent & Hshown).
  destruct (IH st1 (Datatypes.S n)) as (st' & -> & Hsent' & Hshown').
  exists st'. split_and!.
  - by rewrite Nat.add_succ_r.
  - by rewrite Hsent', Hsent, <- app_assoc.
  - congruence.
Qed.

End Loops.

End Accepted.


